(** * disguise: link classifier, page extractor, crawl engine, grouper

    A shallow embedding of the two Go packages of the repository,
    [src/main.go] (package main) and [src/commands/markdown.go]
    (package commands), and the properties their specification states.

    Go strings are byte sequences: they are [string] here, whose
    characters are bytes.  Go's [int] is a 64-bit integer and is [Z];
    the one counter that is incremented in a loop ([n] in [Crawl])
    wraps explicitly.  A run of Go code that can stop abnormally
    returns an [outcome]. *)

From Stdlib Require Import ZArith Ascii String List Lia Permutation.
From stdpp Require Import base decidable list strings countable gmap.

Local Open Scope string_scope.
Local Open Scope Z_scope.

(** ** Abnormal termination *)

(** [Panic]: a Go run-time panic (nil dereference, slice bounds out of
    range, [regexp.MustCompile] on a bad pattern).  [Fatal]: [log.Fatal],
    which exits the process.  [Beyond]: the run needs a regular
    expression outside the fragment of the syntax modelled below. *)
Inductive outcome (A : Type) : Type :=
| Ok (a : A)
| Panic
| Fatal
| Beyond.
Arguments Ok {A} a.
Arguments Panic {A}.
Arguments Fatal {A}.
Arguments Beyond {A}.

Definition bind {A B : Type} (m : outcome A) (k : A -> outcome B) : outcome B :=
  match m with
  | Ok a => k a
  | Panic => Panic
  | Fatal => Fatal
  | Beyond => Beyond
  end.

Notation "'let*' x ':=' m 'in' k" := (bind m (fun x => k))
  (at level 10, x name, m at level 100, k at level 200).

(** [mapM f l] runs [f] on the elements of [l] from left to right and
    stops at the first abnormal outcome. *)
Fixpoint mapM {A B : Type} (f : A -> outcome B) (l : list A) : outcome (list B) :=
  match l with
  | [] => Ok []
  | a :: l' => let* b := f a in let* bs := mapM f l' in Ok (b :: bs)
  end.

(** ** Package strings *)

Module strings.

(** [strings.HasPrefix]. *)
Fixpoint HasPrefix (s p : string) : bool :=
  match p, s with
  | EmptyString, _ => true
  | String a p', String b s' => if Ascii.eqb a b then HasPrefix s' p' else false
  | String _ _, EmptyString => false
  end.

(** The pieces of [s] between the occurrences of a non-empty separator;
    [cur] holds, reversed, the bytes of the piece being read, and [jump]
    counts the bytes of a separator still to be stepped over. *)
Fixpoint split_go (sep : string) (s : string) (cur : string) (jump : nat) : list string :=
  match s with
  | EmptyString => [String.rev cur]
  | String c s' =>
    match jump with
    | S j => split_go sep s' cur j
    | O =>
      if HasPrefix s sep
      then String.rev cur :: split_go sep s' EmptyString (Nat.pred (String.length sep))
      else split_go sep s' (String c cur) O
    end
  end.

(** [strings.Split(s, sep)]: [s] cut at every occurrence of [sep], scanned
    from the left; the result has one piece more than there are
    occurrences, so [Split("", " ")] is the one-element slice [[""]].
    With an empty [sep] Go cuts after each character. *)
Definition Split (s sep : string) : list string :=
  match sep with
  | EmptyString => map (fun c => String c EmptyString) (list_ascii_of_string s)
  | _ => split_go sep s EmptyString O
  end.

(** [strings.Join(elems, sep)]. *)
Fixpoint Join (elems : list string) (sep : string) : string :=
  match elems with
  | [] => EmptyString
  | [e] => e
  | e :: rest => e ++ sep ++ Join rest sep
  end.

End strings.

(** The length of a Go string or slice, as a Go [int]. *)
Definition len_s (s : string) : Z := Z.of_nat (String.length s).
Definition len {A : Type} (l : list A) : Z := Z.of_nat (List.length l).

(** The slice expression [a[lo:hi]] on a slice whose capacity is its
    length: it panics unless [0 <= lo <= hi <= len(a)]. *)
Definition slice {A : Type} (a : list A) (lo hi : Z) : outcome (list A) :=
  if (0 <=? lo) && (lo <=? hi) && (hi <=? len a)
  then Ok (take (Z.to_nat (hi - lo)) (drop (Z.to_nat lo) a))
  else Panic.

(** The string slice [s[:hi]]: it panics unless [0 <= hi <= len(s)]. *)
Definition str_upto (s : string) (hi : Z) : outcome string :=
  if (0 <=? hi) && (hi <=? len_s s)
  then Ok (String.substring 0 (Z.to_nat hi) s)
  else Panic.

(** ** Package unicode/utf8 *)

(** Go's regular expressions read a text one code point at a time.  A
    code point is one to four bytes; a byte that starts no well-formed
    sequence is read alone, as [RuneError]. *)
Module utf8.

Definition RuneError : Z := 0xFFFD.

Definition byte (c : ascii) : Z := Z.of_N (N_of_ascii c).

(** The table [first] with [acceptRanges]: what a first byte announces,
    the length of the sequence and the range of its second byte. *)
Inductive lead : Type :=
| Single
| Invalid
| Lead (size : nat) (lo hi : Z).

Definition first (b : Z) : lead :=
  if b <? 0x80 then Single
  else if b <? 0xC2 then Invalid
  else if b <? 0xE0 then Lead 2 0x80 0xBF
  else if b =? 0xE0 then Lead 3 0xA0 0xBF
  else if b <? 0xED then Lead 3 0x80 0xBF
  else if b =? 0xED then Lead 3 0x80 0x9F
  else if b <? 0xF0 then Lead 3 0x80 0xBF
  else if b =? 0xF0 then Lead 4 0x90 0xBF
  else if b <? 0xF4 then Lead 4 0x80 0xBF
  else if b =? 0xF4 then Lead 4 0x80 0x8F
  else Invalid.

(** [s[i]], read where [i] is known to be in range. *)
Definition at_ (s : string) (i : nat) : Z :=
  match String.get i s with
  | Some c => byte c
  | None => 0
  end.

(** [utf8.DecodeRuneInString(s)] and [utf8.DecodeRune(b)]: the first code
    point and the number of bytes it takes. *)
Definition DecodeRuneInString (s : string) : Z * nat :=
  match s with
  | EmptyString => (RuneError, 0%nat)
  | String c0 _ =>
    let s0 := byte c0 in
    match first s0 with
    | Single => (s0, 1%nat)
    | Invalid => (RuneError, 1%nat)
    | Lead sz lo hi =>
      if (String.length s <? sz)%nat then (RuneError, 1%nat)
      else
        let s1 := at_ s 1 in
        if (s1 <? lo) || (hi <? s1) then (RuneError, 1%nat)
        else if (sz <=? 2)%nat then
          (Z.lor (Z.shiftl (Z.land s0 0x1F) 6) (Z.land s1 0x3F), 2%nat)
        else
          let s2 := at_ s 2 in
          if (s2 <? 0x80) || (0xBF <? s2) then (RuneError, 1%nat)
          else if (sz <=? 3)%nat then
            (Z.lor (Z.lor (Z.shiftl (Z.land s0 0x0F) 12) (Z.shiftl (Z.land s1 0x3F) 6))
                   (Z.land s2 0x3F), 3%nat)
          else
            let s3 := at_ s 3 in
            if (s3 <? 0x80) || (0xBF <? s3) then (RuneError, 1%nat)
            else
              (Z.lor (Z.lor (Z.lor (Z.shiftl (Z.land s0 0x07) 18)
                                   (Z.shiftl (Z.land s1 0x3F) 12))
                            (Z.shiftl (Z.land s2 0x3F) 6))
                     (Z.land s3 0x3F), 4%nat)
    end
  end.

(** [s[n:]], for [n] at most the length of [s]. *)
Fixpoint skip (n : nat) (s : string) : string :=
  match n, s with
  | S n', String _ s' => skip n' s'
  | _, _ => s
  end.

(** The code points of a text, in order: what a loop of
    [DecodeRuneInString] reads.  Every step takes at least one byte, so
    [fuel] the length of the text reaches its end. *)
Fixpoint runes_within (fuel : nat) (s : string) : list Z :=
  match fuel with
  | O => []
  | S fuel' =>
    match s with
    | EmptyString => []
    | String _ _ =>
      let (r, width) := DecodeRuneInString s in
      r :: runes_within fuel' (skip width s)
    end
  end.

Definition runes (s : string) : list Z := runes_within (String.length s) s.

End utf8.

(** ** Package regexp *)

(** The fragment of Go's regular-expression syntax that is modelled: a
    sequence of items, each a literal ASCII byte or [.] (any code point
    but a line feed) with an optional [*], [+] or [?] (itself optionally followed by
    the non-greedy [?], which does not change whether there is a match),
    or one of the anchors [^] and [$] (no flags are set, so these are the
    ends of the text).  A pattern with a group, an alternation, a class, a
    counted repetition, a non-ASCII byte or a repeated anchor is [Unsupported].
    Matching is on the code points of the text, read with package utf8 as
    Go's matcher reads them: [.] and a literal each consume one code
    point. *)
Module regexp.

Inductive atom : Type :=
| Lit (c : ascii)
| AnyNotNL.

Inductive quant : Type := One | Star | Plus | Opt.

Inductive item : Type :=
| Atom (a : atom) (q : quant)
| Bol
| Eol.

Inductive compiled : Type :=
| Compiled (r : list item)
| SyntaxError
| Unsupported.

Definition is_letter_or_digit (c : ascii) : bool :=
  let n := nat_of_ascii c in
  ((48 <=? n) && (n <=? 57) || (65 <=? n) && (n <=? 90) || (97 <=? n) && (n <=? 122))%nat.

Definition is_ascii (c : ascii) : bool := (nat_of_ascii c <? 128)%nat.

Definition quant_of (c : ascii) : option quant :=
  if Ascii.eqb c "*" then Some Star
  else if Ascii.eqb c "+" then Some Plus
  else if Ascii.eqb c "?" then Some Opt
  else None.

Definition is_bracket (c : ascii) : bool :=
  Ascii.eqb c "(" || Ascii.eqb c ")" || Ascii.eqb c "[" || Ascii.eqb c "]"
  || Ascii.eqb c "{" || Ascii.eqb c "}" || Ascii.eqb c "|".

(** What the parser has just read: nothing that can be repeated
    ([Fresh]), an anchor, an atom, or an atom with its operator (to which
    only a non-greedy [?] may still be added). *)
Inductive last_read : Type := Fresh | AfterAnchor | AfterAtom (a : atom) | AfterQuant | AfterLazy.

(** [parse s prev acc]: [acc] holds the items read so far, reversed; the
    atom in [AfterAtom] is not in [acc] yet. *)
Fixpoint parse (s : string) (prev : last_read) (acc : list item) : compiled :=
  let flush := match prev with AfterAtom a => Atom a One :: acc | _ => acc end in
  match s with
  | EmptyString => Compiled (List.rev flush)
  | String c s' =>
    if negb (is_ascii c) then Unsupported
    else if is_bracket c then Unsupported
    else match quant_of c with
    | Some q =>
      match prev with
      | Fresh => SyntaxError
      | AfterAnchor => Unsupported
      | AfterAtom a => parse s' AfterQuant (Atom a q :: acc)
      | AfterQuant =>
        match q with
        | Opt => parse s' AfterLazy acc
        | _ => SyntaxError
        end
      | AfterLazy => SyntaxError
      end
    | None =>
      if Ascii.eqb c "." then parse s' (AfterAtom AnyNotNL) flush
      else if Ascii.eqb c "^" then parse s' AfterAnchor (Bol :: flush)
      else if Ascii.eqb c "$" then parse s' AfterAnchor (Eol :: flush)
      else if Ascii.eqb c "\" then
        match s' with
        | EmptyString => SyntaxError
        | String d s'' =>
          if negb (is_ascii d) then Unsupported
          else if is_letter_or_digit d then Unsupported
          else parse s'' (AfterAtom (Lit d)) flush
        end
      else parse s' (AfterAtom (Lit c)) flush
    end
  end.

Definition Compile (pattern : string) : compiled := parse pattern Fresh [].

(** Does the atom accept this code point?  A literal of a pattern is an
    ASCII byte here, hence its own code point. *)
Definition atom_ok (a : atom) (c : Z) : bool :=
  match a with
  | Lit d => utf8.byte d =? c
  | AnyNotNL => negb (c =? 10)
  end.

(** [match_here r bol s]: does [r] match a prefix of the code points [s]?
    [bol] tells whether [s] starts at the beginning of the text. *)
Fixpoint match_here (r : list item) (bol : bool) (s : list Z) {struct r} : bool :=
  match r with
  | [] => true
  | Bol :: r' => bol && match_here r' bol s
  | Eol :: r' => match s with [] => match_here r' bol s | _ => false end
  | Atom a q :: r' =>
    let star :=
      fix star (bol : bool) (s : list Z) {struct s} : bool :=
        match_here r' bol s
        || match s with
           | c :: s' => atom_ok a c && star false s'
           | [] => false
           end in
    match q with
    | One =>
      match s with
      | c :: s' => atom_ok a c && match_here r' false s'
      | [] => false
      end
    | Opt =>
      match_here r' bol s
      || match s with
         | c :: s' => atom_ok a c && match_here r' false s'
         | [] => false
         end
    | Star => star bol s
    | Plus =>
      match s with
      | c :: s' => atom_ok a c && star false s'
      | [] => false
      end
    end
  end.

(** An unanchored search: a match may start at any code point. *)
Fixpoint search (r : list item) (bol : bool) (s : list Z) : bool :=
  match_here r bol s
  || match s with
     | _ :: s' => search r false s'
     | [] => false
     end.

(** The methods [Match(b)] and [MatchString(s)] of a compiled
    expression: is there a match anywhere in the text? *)
Definition Match (r : list item) (text : string) : bool :=
  search r true (utf8.runes text).

(** [regexp.Match(pattern, b)] and [regexp.MatchString(pattern, s)]:
    [Ok] of the answer, or [Fatal] standing for the error Go returns for a
    pattern it cannot parse (each caller passes it to [log.Fatal]). *)
Definition MatchString (pattern s : string) : outcome bool :=
  match Compile pattern with
  | Compiled r => Ok (Match r s)
  | SyntaxError => Fatal
  | Unsupported => Beyond
  end.

(** [regexp.MustCompile(pattern)] panics where [Compile] reports an error. *)
Definition MustCompile (pattern : string) : outcome (list item) :=
  match Compile pattern with
  | Compiled r => Ok r
  | SyntaxError => Panic
  | Unsupported => Beyond
  end.

End regexp.

(** ** The data model *)

(** [html.Node] of golang.org/x/net/html, as far as the program reads it:
    the node's type, its [Data] (the tag name of an element, the text of a
    text node), its attributes in document order, and its children, which
    Go reaches through [FirstChild] and then [NextSibling]. *)
Inductive NodeType : Type :=
| ErrorNode | TextNode | DocumentNode | ElementNode | CommentNode | DoctypeNode.

Record Attribute : Type := mkAttr { Key : string; Val : string }.

#[local] Unset Elimination Schemes.
Inductive Node : Type :=
| mkNode (Type_ : NodeType) (Data : string) (Attr : list Attribute) (children : list Node).
#[local] Set Elimination Schemes.

Definition Type_ (n : Node) : NodeType := match n with mkNode t _ _ _ => t end.
Definition Data (n : Node) : string := match n with mkNode _ d _ _ => d end.
Definition Attr (n : Node) : list Attribute := match n with mkNode _ _ a _ => a end.
Definition children (n : Node) : list Node := match n with mkNode _ _ _ c => c end.

(** [n.FirstChild], [None] for Go's nil. *)
Definition FirstChild (n : Node) : option Node := head (children n).

(** Both packages declare the same two structs, [MDDir] and [MDFile]
    (the fields are renamed apart: Go's [MDDir.name], [MDFile.name]). *)
Record MDDir : Type := mkMDDir { dir_name : string; dir_href : string }.

Record MDFile : Type := mkMDFile { file_href : string; file_name : string; file_dir : MDDir }.

(** [Element] is Go's empty interface; the values the program stores in
    it are nil, an [MDFile] and an [MDDir]. *)
Inductive Element : Type :=
| ENil
| EFile (f : MDFile)
| EDir (d : MDDir).

#[global] Instance NodeType_eq_dec : EqDecision NodeType.
Proof. solve_decision. Defined.
#[global] Instance MDDir_eq_dec : EqDecision MDDir.
Proof. solve_decision. Defined.
#[global] Instance MDFile_eq_dec : EqDecision MDFile.
Proof. solve_decision. Defined.
#[global] Instance Element_eq_dec : EqDecision Element.
Proof. solve_decision. Defined.
#[global] Instance MDDir_countable : Countable MDDir.
Proof.
  apply (inj_countable' (fun d => (dir_name d, dir_href d))
                        (fun p => mkMDDir (fst p) (snd p))).
  intros []; reflexivity.
Defined.

(** The remote site: what [http.Get] and then [html.Parse] give for a URL. *)
Inductive response : Type :=
| GetError
| Response (StatusCode : Z) (Body : option Node).

Definition StatusOK : Z := 200.

(** The style the listing rows of the site carry. *)
Definition rowStyle : string := "js-navigation-open link-gray-dark".

Definition origin : string := "https://github.com".

Definition is_anchor (n : Node) : bool :=
  bool_decide (Type_ n = ElementNode) && String.eqb (Data n) "a".

(** [ForEachNode(n, f)]: [f] on [n], then on the subtrees of its children
    from the first to the last.  [f] is a closure over the variables of
    its caller; here it takes them as a state of type [S]. *)
Fixpoint ForEachNode {S : Type} (n : Node) (f : Node -> S -> outcome S) (st : S) : outcome S :=
  match n with
  | mkNode _ _ _ cs =>
    let* st1 := f n st in
    (fix siblings (cs : list Node) (st : S) : outcome S :=
       match cs with
       | [] => Ok st
       | c :: cs' => let* st' := ForEachNode c f st in siblings cs' st'
       end) cs st1
  end.

(** ** The crawl engine *)

(** [Crawl] is the same text in both packages, up to a [time.Sleep]
    before each [go] statement in package commands; it is written once
    here, over the package's [Extract] with its last two arguments fixed.

    The goroutines run [Extract] and then block on the unbuffered channel
    [worklist] until the loop receives from them; which of them the next
    receive takes is not determined by the program, so the loop is run
    against a scheduler.  [inflight] lists, in the order they were
    started, the URLs of the goroutines that are started and not yet
    received from.  [dispatched] records every [go] statement executed:
    it is not a variable of the program. *)
Module engine.

(** Go's [int] on the 64-bit platforms. *)
Definition wrap64 (z : Z) : Z := (z + 2 ^ 63) mod 2 ^ 64 - 2 ^ 63.

Record state : Type := mkState {
  n : Z;
  inflight : list string;
  results : list MDFile;
  dispatched : list string
}.

Inductive run : Type :=
| Returned (st : state)          (* the loop ended; [results st] is returned *)
| Aborted (why : outcome unit)   (* a goroutine's [Extract] stopped the process *)
| Deadlock (st : state)          (* a receive with no goroutine left to send *)
| OutOfFuel (st : state).        (* the loop has not ended within the fuel *)

(** One round of [for _, f := range list]. *)
Definition visit (st : state) (f : Element) : state :=
  match f with
  | EDir v => mkState (wrap64 (n st + 1)) (inflight st ++ [dir_href v])%list
                      (results st) (dispatched st ++ [dir_href v])%list
  | EFile v => mkState (n st) (inflight st) (results st ++ [v])%list (dispatched st)
  | ENil => st
  end.

Section Loop.

Variable Extract : string -> outcome (list Element).

(** The scheduler: at the [k]-th receive, [sched k] (modulo the number of
    goroutines in flight) is the position of the one that delivers. *)
Variable sched : nat -> nat.

(** [for n := 1; n > 0; n-- { list := <-worklist; ... }], entered at its
    condition, with [k] receives done so far. *)
Fixpoint loop (fuel : nat) (k : nat) (st : state) : run :=
  if n st >? 0 then
    match fuel with
    | O => OutOfFuel st
    | S fuel' =>
      match inflight st with
      | [] => Deadlock st
      | _ :: _ =>
        let i := (sched k mod List.length (inflight st))%nat in
        match inflight st !! i with
        | None => Deadlock st
        | Some url =>
          match Extract url with
          | Ok list =>
            let st1 := fold_left visit list
                         (mkState (n st) (delete i (inflight st)) (results st) (dispatched st)) in
            loop fuel' (S k)
                 (mkState (wrap64 (n st1 - 1)) (inflight st1) (results st1) (dispatched st1))
          | Panic => Aborted Panic
          | Fatal => Aborted Fatal
          | Beyond => Aborted Beyond
          end
        end
      end
    end
  else Returned st.

Definition Crawl (fuel : nat) (url : string) : run :=
  loop fuel 0%nat (mkState 1 [url] [] [url]).

End Loop.

End engine.

(** ** Package main ([src/main.go]) *)

Module Main.

(** [IsContains(elements, pattern)]: [pattern] is the regular expression
    and each element is a text it is searched in. *)
Fixpoint IsContains (elements : list string) (pattern : string) : outcome bool :=
  match elements with
  | [] => Ok false
  | e :: rest =>
    let* matched := regexp.MatchString pattern e in
    if matched : bool then Ok true else IsContains rest pattern
  end.

(** The local variables of [CheckLink]. *)
Record vars : Type := mkVars {
  hasRightStyles : bool;
  isTrackedFile : bool;
  isDir : bool;
  fhref : string;
  fname : string;
  dirname : string;
  dirhref : string
}.

Definition vars0 : vars := mkVars false false false "" "" "" "".

(** One round of the loop over [n.Attr]. *)
Definition attr_step (n : Node) (matchFile matchDir : list regexp.item)
    (v : vars) (a : Attribute) : outcome vars :=
  if String.eqb (Key a) "href" then
    let fhref' := origin ++ Val a in
    let* fname' := match FirstChild n with
                   | Some c => Ok (Data c)
                   | None => Panic
                   end in
    let pathArray := strings.Split fhref' "/" in
    let* v1 :=
      if regexp.Match matchDir fhref' then
        let* seg := slice pathArray 5 (len pathArray - 1) in
        Ok (mkVars (hasRightStyles v) (isTrackedFile v) true fhref' fname'
                   (strings.Join seg "/") (dirhref v))
      else if regexp.Match matchFile fhref' then
        let* seg := slice pathArray 7 (len pathArray - 1) in
        Ok (mkVars (hasRightStyles v) true (isDir v) fhref' fname'
                   (strings.Join seg "/") (dirhref v))
      else
        Ok (mkVars (hasRightStyles v) (isTrackedFile v) (isDir v) fhref' fname'
                   (dirname v) (dirhref v)) in
    if isDir v1 || isTrackedFile v1 then
      let* seg := slice pathArray 0 (len pathArray - 1) in
      Ok (mkVars (hasRightStyles v1) (isTrackedFile v1) (isDir v1) (fhref v1) (fname v1)
                 (dirname v1) (strings.Join seg "/"))
    else Ok v1
  else if String.eqb (Key a) "class" then
    if String.eqb (Val a) rowStyle
    then Ok (mkVars true (isTrackedFile v) (isDir v) (fhref v) (fname v) (dirname v) (dirhref v))
    else Ok v
  else Ok v.

Fixpoint attr_loop (n : Node) (matchFile matchDir : list regexp.item)
    (attrs : list Attribute) (v : vars) : outcome vars :=
  match attrs with
  | [] => Ok v
  | a :: rest =>
    let* v' := attr_step n matchFile matchDir v a in
    attr_loop n matchFile matchDir rest v'
  end.

(** [CheckLink] up to the end of its loop: the two patterns are compiled,
    then the attributes are read. *)
Definition scan (n : Node) (extension : string) : outcome vars :=
  let* matchFile := regexp.MustCompile (".+/blob/.+" ++ extension ++ "$") in
  let* matchDir := regexp.MustCompile ".+/tree/.+" in
  attr_loop n matchFile matchDir (Attr n) vars0.

(** [CheckLink] after its loop. *)
Definition decide_link (v : vars) (extension : string) (ignoreDirs : list string)
    : outcome Element :=
  let* ignored := IsContains ignoreDirs (dirname v) in
  if ignored : bool then Ok ENil
  else if hasRightStyles v && isTrackedFile v then
    let* name := str_upto (fname v) (len_s (fname v) - len_s extension) in
    Ok (EFile (mkMDFile (fhref v) name (mkMDDir (dirname v) (dirhref v))))
  else if hasRightStyles v && isDir v then
    Ok (EDir (mkMDDir (dirname v) (dirhref v)))
  else Ok ENil.

Definition CheckLink (n : Node) (extension : string) (ignoreDirs : list string)
    : outcome Element :=
  let* v := scan n extension in
  decide_link v extension ignoreDirs.

(** The closure [visitNode] of [Extract]; [files] is its captured slice. *)
Definition visitNode (extension : string) (ignoreDirs : list string)
    (n : Node) (files : list Element) : outcome (list Element) :=
  if is_anchor n then
    let* link := CheckLink n extension ignoreDirs in
    Ok (files ++ [link])%list
  else Ok files.

Definition Extract (web : string -> response) (url extension : string)
    (ignoreDirs : list string) : outcome (list Element) :=
  match web url with
  | GetError => Fatal
  | Response code body =>
    if negb (code =? StatusOK) then Fatal
    else match body with
         | None => Fatal
         | Some doc => ForEachNode doc (visitNode extension ignoreDirs) []
         end
  end.

(** [GroupByDir]: the key of the Go map is the whole [MDDir] struct; a
    missing key reads as the nil slice. *)
Definition GroupByDir (files : list MDFile) : gmap MDDir (list MDFile) :=
  fold_left (fun grouped f =>
               <[file_dir f := (default [] (grouped !! file_dir f) ++ [f])%list]> grouped)
            files ∅.

(** In [main]: [var ignoreDirs = strings.Split( *toIgnore, " ")]. *)
Definition ignoreDirs_of_flag (toIgnore : string) : list string :=
  strings.Split toIgnore " ".

Definition Crawl (web : string -> response) (sched : nat -> nat) (fuel : nat)
    (url extension : string) (ignoreDirs : list string) : engine.run :=
  engine.Crawl (fun u => Extract web u extension ignoreDirs) sched fuel url.

End Main.

(** ** Package commands ([src/commands/markdown.go]) *)

Module Commands.

(** [IsContains(elements, pattern)]: each element is a regular expression
    and [pattern] is the text it is searched in. *)
Fixpoint IsContains_loop (elements : list string) (pattern : string) : outcome bool :=
  match elements with
  | [] => Ok false
  | e :: rest =>
    let* matched := regexp.MatchString e pattern in
    if matched : bool then Ok true else IsContains_loop rest pattern
  end.

Definition IsContains (elements : list string) (pattern : string) : outcome bool :=
  if len elements =? 0 then Ok false else IsContains_loop elements pattern.

(** The local variables of [CheckLink] ([pathArray], declared before the
    loop in this package, is read only in the round that assigns it). *)
Record vars : Type := mkVars {
  hasRightStyles : bool;
  isTrackedFile : bool;
  isDir : bool;
  href : string;
  fname : string;
  dirname : string;
  dirhref : string
}.

Definition vars0 : vars := mkVars false false false "" "" "" "".

(** One round of the loop over [n.Attr]; no round assigns [dirhref]. *)
Definition attr_step (n : Node) (matchFile matchDir : list regexp.item)
    (v : vars) (a : Attribute) : outcome vars :=
  if String.eqb (Key a) "href" then
    let href' := origin ++ Val a in
    let* fname' := match FirstChild n with
                   | Some c => Ok (Data c)
                   | None => Panic
                   end in
    let pathArray := strings.Split href' "/" in
    if regexp.Match matchDir href' then
      let* seg := slice pathArray 6 (len pathArray) in
      Ok (mkVars (hasRightStyles v) (isTrackedFile v) true href' fname'
                 (strings.Join seg "/") (dirhref v))
    else if regexp.Match matchFile href' then
      let* seg := slice pathArray 7 (len pathArray - 1) in
      Ok (mkVars (hasRightStyles v) true (isDir v) href' fname'
                 (strings.Join seg "/") (dirhref v))
    else
      Ok (mkVars (hasRightStyles v) (isTrackedFile v) (isDir v) href' fname'
                 (dirname v) (dirhref v))
  else if String.eqb (Key a) "class" then
    if String.eqb (Val a) rowStyle
    then Ok (mkVars true (isTrackedFile v) (isDir v) (href v) (fname v) (dirname v) (dirhref v))
    else Ok v
  else Ok v.

Fixpoint attr_loop (n : Node) (matchFile matchDir : list regexp.item)
    (attrs : list Attribute) (v : vars) : outcome vars :=
  match attrs with
  | [] => Ok v
  | a :: rest =>
    let* v' := attr_step n matchFile matchDir v a in
    attr_loop n matchFile matchDir rest v'
  end.

Definition scan (n : Node) (extension : string) : outcome vars :=
  let* matchFile := regexp.MustCompile (".+/blob/.+" ++ extension ++ "$") in
  let* matchDir := regexp.MustCompile ".+/tree/.+" in
  attr_loop n matchFile matchDir (Attr n) vars0.

Definition decide_link (v : vars) (extension : string) (ignoreDirs : list string)
    : outcome Element :=
  if negb (hasRightStyles v) then Ok ENil
  else
    let* ignored := IsContains ignoreDirs (dirname v) in
    if ignored : bool then Ok ENil
    else if isTrackedFile v then
      let* name := str_upto (fname v) (len_s (fname v) - len_s extension) in
      Ok (EFile (mkMDFile (href v) name (mkMDDir (dirname v) (dirhref v))))
    else if isDir v then
      Ok (EDir (mkMDDir (dirname v) (href v)))
    else Ok ENil.

Definition CheckLink (n : Node) (extension : string) (ignoreDirs : list string)
    : outcome Element :=
  let* v := scan n extension in
  decide_link v extension ignoreDirs.

(** [visitNode] keeps a link only [if link != nil]. *)
Definition visitNode (extension : string) (ignoreDirs : list string)
    (n : Node) (files : list Element) : outcome (list Element) :=
  if is_anchor n then
    let* link := CheckLink n extension ignoreDirs in
    match link with
    | ENil => Ok files
    | _ => Ok (files ++ [link])%list
    end
  else Ok files.

Definition Extract (web : string -> response) (url extension : string)
    (ignoreDirs : list string) : outcome (list Element) :=
  match web url with
  | GetError => Fatal
  | Response code body =>
    if negb (code =? StatusOK) then Fatal
    else match body with
         | None => Fatal
         | Some doc => ForEachNode doc (visitNode extension ignoreDirs) []
         end
  end.

Definition GroupByDir (files : list MDFile) : gmap MDDir (list MDFile) :=
  fold_left (fun grouped f =>
               <[file_dir f := (default [] (grouped !! file_dir f) ++ [f])%list]> grouped)
            files ∅.

Definition Crawl (web : string -> response) (sched : nat -> nat) (fuel : nat)
    (url extension : string) (ignoreDirs : list string) : engine.run :=
  engine.Crawl (fun u => Extract web u extension ignoreDirs) sched fuel url.

(** [getIgnoreDirs]: [ignoreDirs[0]] panics on an empty slice. *)
Definition getIgnoreDirs (toIgnore : string) : outcome (list string) :=
  let ignoreDirs := strings.Split toIgnore " " in
  match ignoreDirs with
  | [] => Panic
  | first :: _ => if String.eqb first "" then Ok [] else Ok ignoreDirs
  end.

End Commands.

(** ** The tree a crawl walks *)

(** [dir_hrefs batch] and [files_of batch]: the hrefs of the [MDDir]
    entries and the [MDFile] entries of a batch, in order. *)
Fixpoint dir_hrefs (batch : list Element) : list string :=
  match batch with
  | [] => []
  | EDir v :: rest => dir_href v :: dir_hrefs rest
  | _ :: rest => dir_hrefs rest
  end.

Fixpoint files_of (batch : list Element) : list MDFile :=
  match batch with
  | [] => []
  | EFile v :: rest => v :: files_of rest
  | _ :: rest => files_of rest
  end.

(** A finite tree of directory URLs. *)
#[local] Unset Elimination Schemes.
Inductive dtree : Type :=
| DNode (url : string) (kids : list dtree).
#[local] Set Elimination Schemes.

Definition root (t : dtree) : string := match t with DNode u _ => u end.
Definition kids (t : dtree) : list dtree := match t with DNode _ k => k end.

Fixpoint size (t : dtree) : nat :=
  match t with
  | DNode _ ks => S (list_sum (map size ks))
  end.

(** The URLs of the nodes, parents first. *)
Fixpoint urls (t : dtree) : list string :=
  match t with
  | DNode u ks => u :: flat_map urls ks
  end.

Section Unfolding.

Variable Extract : string -> outcome (list Element).

(** [unfolds t]: the site, seen through [Extract], is the tree [t] below
    the URL at its root: every page of [t] is extracted without a
    failure, and the directories it lists are, in order, the children of
    its node. *)
Fixpoint unfolds (t : dtree) : bool :=
  match t with
  | DNode u ks =>
    match Extract u with
    | Ok list => bool_decide (dir_hrefs list = map root ks) && forallb unfolds ks
    | _ => false
    end
  end.

(** The files the page at [u] lists. *)
Definition page_files (u : string) : list MDFile :=
  match Extract u with
  | Ok list => files_of list
  | _ => []
  end.

End Unfolding.

(** ** Sample pages *)

Definition text (s : string) : Node := mkNode TextNode s [] [].

(** A row of a listing page: [<a class="js-navigation-open
    link-gray-dark" href=...>label</a>]. *)
Definition row (href label : string) : Node :=
  mkNode ElementNode "a" [mkAttr "class" rowStyle; mkAttr "href" href] [text label].

Definition page (rows : list Node) : Node :=
  mkNode DocumentNode "" []
    [mkNode ElementNode "html" []
       [mkNode ElementNode "head" [] []; mkNode ElementNode "body" [] rows]].

(** An anchor with an href and nothing inside: [<a class=... href=...></a>]. *)
Definition empty_anchor (href : string) : Node :=
  mkNode ElementNode "a" [mkAttr "class" rowStyle; mkAttr "href" href] [].

(** A repository whose root directory holds one directory, [a], which
    holds one file, [x.go]. *)
Definition rootUrl : string := "https://github.com/o/r/tree/main".
Definition aUrl : string := "https://github.com/o/r/tree/main/a".

Definition site (url : string) : response :=
  if String.eqb url rootUrl then
    Response 200 (Some (page [row "/o/r/tree/main/a" "a"]))
  else if String.eqb url aUrl then
    Response 200 (Some (page [row "/o/r/blob/main/a/x.go" "x.go"]))
  else Response 404 None.

(** A site on which one directory, [shared], is listed by two
    directories, [a] and [b], of the root. *)
Definition bUrl : string := "https://github.com/o/r/tree/main/b".
Definition sharedUrl : string := "https://github.com/o/r/tree/main/shared".

Definition site2 (url : string) : response :=
  if String.eqb url rootUrl then
    Response 200 (Some (page [row "/o/r/tree/main/a" "a"; row "/o/r/tree/main/b" "b"]))
  else if String.eqb url aUrl then
    Response 200 (Some (page [row "/o/r/tree/main/shared" "shared"]))
  else if String.eqb url bUrl then
    Response 200 (Some (page [row "/o/r/tree/main/shared" "shared"]))
  else if String.eqb url sharedUrl then
    Response 200 (Some (page [row "/o/r/blob/main/shared/x.go" "x.go"]))
  else Response 404 None.

Definition tree2 : dtree :=
  DNode rootUrl [DNode aUrl [DNode sharedUrl []]; DNode bUrl [DNode sharedUrl []]].

Definition shared_x : MDFile :=
  mkMDFile "https://github.com/o/r/blob/main/shared/x.go" "x" (mkMDDir "shared" "").

(** ** Vocabulary of the statements *)

(** The nodes of a document in the order [ForEachNode] visits them. *)
Fixpoint preorder (n : Node) : list Node :=
  match n with
  | mkNode _ _ _ cs => n :: flat_map preorder cs
  end.

Definition anchors (doc : Node) : list Node := List.filter is_anchor (preorder doc).

Definition non_nil (e : Element) : bool :=
  match e with
  | ENil => false
  | _ => true
  end.

(** Two files are in the same group of a grouping. *)
Definition same_group (grouped : gmap MDDir (list MDFile)) (f1 f2 : MDFile) : Prop :=
  exists (d : MDDir) (l : list MDFile), grouped !! d = Some l /\ In f1 l /\ In f2 l.

(** Two files of package main, found under the same directory name on
    two branches. *)
Definition file_on_main : MDFile :=
  mkMDFile "https://github.com/o/r/blob/main/a/x.go" "x"
           (mkMDDir "a" "https://github.com/o/r/blob/main/a").
Definition file_on_dev : MDFile :=
  mkMDFile "https://github.com/o/r/blob/dev/a/y.go" "y"
           (mkMDDir "a" "https://github.com/o/r/blob/dev/a").

(** A page with one anchor that is no listing row. *)
Definition plain_page : Node :=
  page [mkNode ElementNode "a" [mkAttr "href" "/o/r/issues"] [text "Issues"]].

Definition plain_site (url : string) : response := Response 200 (Some plain_page).

(** A visit that classifies the anchors and appends what [keep] retains
    of each result; [visitNode] of package main keeps every result, that
    of package commands the ones that are not nil. *)
Definition visit_with (classify : Node -> outcome Element) (keep : Element -> list Element)
    (n : Node) (files : list Element) : outcome (list Element) :=
  if is_anchor n then
    let* link := classify n in
    Ok (files ++ keep link)%list
  else Ok files.

Definition keep_all (e : Element) : list Element := [e].
Definition keep_non_nil (e : Element) : list Element := if non_nil e then [e] else [].

(** The trees whose roots are in flight: their sizes, and the URLs
    strictly below their roots. *)
Definition forest_size (F : list dtree) : nat := list_sum (map size F).

Definition below (F : list dtree) : list string :=
  flat_map (fun t => flat_map urls (kids t)) F.

(** The file [x.go] of the directory [a] of [site], as package commands
    classifies it. *)
Definition a_x : MDFile :=
  mkMDFile "https://github.com/o/r/blob/main/a/x.go" "x" (mkMDDir "a" "").

(** What package main keeps true of the variables of [CheckLink] once a
    row has the shape of a directory or of a file: [fhref] is an absolute
    URL of the site and [dirhref] is [fhref] without its last segment. *)
Definition dirhref_derived (v : Main.vars) : Prop :=
  Main.isDir v || Main.isTrackedFile v = true ->
  exists (val : string) (seg : list string),
    Main.fhref v = origin ++ val
    /\ slice (strings.Split (Main.fhref v) "/") 0
             (len (strings.Split (Main.fhref v) "/") - 1) = Ok seg
    /\ Main.dirhref v = strings.Join seg "/".

(** ** The rest of the two packages *)

(** The index expression [a[i]]: it panics unless [0 <= i < len(a)]. *)
Definition index {A : Type} (a : list A) (i : Z) : outcome A :=
  if (0 <=? i) && (i <? len a)
  then match a !! Z.to_nat i with
       | Some x => Ok x
       | None => Panic
       end
  else Panic.

(** A run of [f] over a list, carrying a state, that stops at the first
    abnormal outcome. *)
Fixpoint foldM {A S : Type} (f : A -> S -> outcome S) (l : list A) (st : S) : outcome S :=
  match l with
  | [] => Ok st
  | a :: l' => let* st' := f a st in foldM f l' st'
  end.

(** The methods [GetMarkDown] and the function [PrintResults], the same
    text in both packages. *)
Module markdown.

Definition newline : string := String "010"%char EmptyString.

(** [fmt.Sprintf("- [ ] [%s](%s)\n", f.name, f.href)]. *)
Definition File_GetMarkDown (f : MDFile) : string :=
  "- [ ] [" ++ file_name f ++ "](" ++ file_href f ++ ")" ++ newline.

(** [fmt.Sprintf("* ###[%s](%s)\n", d.name, d.href)]. *)
Definition Dir_GetMarkDown (d : MDDir) : string :=
  "* ###[" ++ dir_name d ++ "](" ++ dir_href d ++ ")" ++ newline.

Fixpoint has_percent (s : string) : bool :=
  match s with
  | EmptyString => false
  | String c s' => Ascii.eqb c "%" || has_percent s'
  end.

(** [fmt.Fprintf(out, format)] without operands writes [format] as it is
    when it holds no [%]; what it writes for a [%] (a missing-operand
    mark) is not modelled.  [fmt.Fprint(out, s)] writes [s] as it is. *)
Definition Fprintf (format : string) : outcome string :=
  if has_percent format then Beyond else Ok format.

Section Print.

(** The order in which [range] yields the entries of a map is chosen by
    the Go runtime; [range_of] stands for it. *)
Variable range_of : gmap MDDir (list MDFile) -> list (MDDir * list MDFile).

(** The body of [for dir, files := range ...], on a writer that accepts
    every write; [out] is the sequence of the writes done so far, one for
    each call of [Fprintf] and [Fprint]. *)
Definition print_group (entry : MDDir * list MDFile) (out : list string)
    : outcome (list string) :=
  let* heading := Fprintf (Dir_GetMarkDown (fst entry)) in
  let* blank := Fprintf newline in
  Ok (out ++ heading :: map File_GetMarkDown (snd entry) ++ [blank])%list.

Definition PrintResults (out : list string) (results : list MDFile) : outcome (list string) :=
  foldM print_group (range_of (Main.GroupByDir results)) out.

End Print.

End markdown.

(** What the entry points do before and after the crawl. *)
Module cli.

(** [CheckRepositoryURL] of package main; an outcome other than [Ok]
    stands for the error it returns. *)
Definition CheckRepositoryURL (url : string) : outcome bool :=
  regexp.MatchString "^https:\/\/github.com/.*$" url.

(** [strings.Split(url, "/")[len(strings.Split(url, "/")) - 1]], the
    [fname] of [main] and of [GetMarkdown]. *)
Definition fname (url : string) : outcome string :=
  index (strings.Split url "/") (len (strings.Split url "/") - 1).

(** The file [main] creates: [fmt.Sprintf("%s.md", fname)]. *)
Definition Main_result_file (url : string) : outcome string :=
  let* name := fname url in Ok (name ++ ".md").

(** The file [GetMarkdown] creates: [fmt.Sprintf("./results/%s.md", fname)]. *)
Definition Commands_result_file (url : string) : outcome string :=
  let* name := fname url in Ok ("./results/" ++ name ++ ".md").

End cli.

(** ** Vocabulary of the further statements *)

Fixpoint has_char (c : ascii) (s : string) : bool :=
  match s with
  | EmptyString => false
  | String d s' => Ascii.eqb c d || has_char c s'
  end.

(** The state the loop of [Crawl] goes on from when the goroutine at
    position [i] delivers [batch]. *)
Definition after_receive (st : engine.state) (i : nat) (batch : list Element) : engine.state :=
  let st1 := fold_left engine.visit batch
               (engine.mkState (engine.n st) (delete i (engine.inflight st))
                               (engine.results st) (engine.dispatched st)) in
  engine.mkState (engine.wrap64 (engine.n st1 - 1)) (engine.inflight st1)
                 (engine.results st1) (engine.dispatched st1).

(** The hrefs of the directories the page at [u] lists. *)
Definition page_dirs (Extract : string -> outcome (list Element)) (u : string) : list string :=
  match Extract u with
  | Ok batch => dir_hrefs batch
  | _ => []
  end.

(** What the loop of [Crawl] keeps true, [received] being the URLs of the
    pages received so far, in the order of the receives: the counter is
    the number of goroutines in flight (as a 64-bit integer), every fetch
    started is received or in flight, every page received was extracted,
    the result is the files of the pages received, in that order, and the
    fetches started are the first one and then one for each directory of
    the pages received, in that order. *)
Definition crawl_inv (Extract : string -> outcome (list Element)) (start : string)
    (st : engine.state) (received : list string) : Prop :=
  engine.n st = engine.wrap64 (Z.of_nat (length (engine.inflight st)))
  /\ engine.dispatched st ≡ₚ (received ++ engine.inflight st)%list
  /\ Forall (fun u => exists batch, Extract u = Ok batch) received
  /\ engine.results st = flat_map (page_files Extract) received
  /\ engine.dispatched st = start :: flat_map (page_dirs Extract) received.

(** A row of a file that lies in a directory called [tree], a row whose
    label is not the name of the file, and a row of a file in a directory
    called [c++]. *)
Definition row_under_tree : Node := row "/o/r/blob/main/tree/a/x.go" "x.go".
Definition row_other_label : Node := row "/o/r/blob/main/a/x.go" "README".
Definition row_short_label : Node := row "/o/r/blob/main/a/x.go" "x".
Definition row_cpp : Node := row "/o/r/blob/main/c++/x.go" "x.go".

(** A page with a listing row and, after it, an anchor with an href and
    nothing inside. *)
Definition broken_page : Node :=
  page [row "/o/r/blob/main/a/x.go" "x.go"; empty_anchor "/o/r/pulls"].

Definition broken_site (url : string) : response := Response 200 (Some broken_page).

(** A site whose two pages list each other. *)
Definition pingUrl : string := "https://github.com/o/r/tree/main/ping".
Definition pongUrl : string := "https://github.com/o/r/tree/main/pong".

Definition cyclic_site (url : string) : response :=
  if String.eqb url pingUrl then
    Response 200 (Some (page [row "/o/r/tree/main/pong" "pong"]))
  else if String.eqb url pongUrl then
    Response 200 (Some (page [row "/o/r/tree/main/ping" "ping"]))
  else Response 404 None.

(** The writes [PrintResults] does for one entry of the map: the heading
    of the directory, a line for each file of the group, a line feed. *)
Definition group_writes (entry : MDDir * list MDFile) : list string :=
  (markdown.Dir_GetMarkDown (fst entry)
   :: map markdown.File_GetMarkDown (snd entry) ++ [markdown.newline])%list.

(** The items of a pattern that is the literal text [p]. *)
Definition lits (p : string) : list regexp.item :=
  map (fun c => regexp.Atom (regexp.Lit c) regexp.One) (list_ascii_of_string p).

(** The code points of an ASCII text [p]: its bytes. *)
Definition codes (p : string) : list Z := map utf8.byte (list_ascii_of_string p).

(** The letter e with an acute accent (U+00E9), two bytes in UTF-8. *)
Definition e_acute : string := String "195" (String "169" EmptyString).

(** A row for a file whose name starts with that letter. *)
Definition row_accent : Node :=
  row ("/o/r/blob/" ++ e_acute ++ "go") (e_acute ++ "go").

(** A row whose href is already an absolute URL. *)
Definition row_absolute : Node := row "https://example.org/o/r/tree/main/a" "a".

(** * Properties *)

Local Open Scope list_scope.

(** ** The library functions on the program's own strings *)

Example Split_directory_url :
  strings.Split "https://github.com/o/r/tree/main/a/b" "/"
  = ["https:"; ""; "github.com"; "o"; "r"; "tree"; "main"; "a"; "b"].
Proof. reflexivity. Qed.

Example Split_empty_flag : strings.Split "" " " = [""].
Proof. reflexivity. Qed.

Example Split_leading_space : strings.Split " vendor" " " = [""; "vendor"].
Proof. reflexivity. Qed.

Example Join_segments : strings.Join ["main"; "a"; "b"] "/" = "main/a/b".
Proof. reflexivity. Qed.

Example matchDir_on_directory_url :
  regexp.MatchString ".+/tree/.+" "https://github.com/o/r/tree/main/a/b" = Ok true.
Proof. reflexivity. Qed.

Example matchFile_is_anchored_at_the_end :
  regexp.MatchString ".+/blob/.+.go$" "https://github.com/o/r/blob/main/a/b/file.go" = Ok true
  /\ regexp.MatchString ".+/blob/.+.go$" "https://github.com/o/r/blob/main/a/b/file.gox"
     = Ok false.
Proof. split; reflexivity. Qed.

Example pattern_is_searched_in_text :
  regexp.MatchString "vendor" "vendor/pkg" = Ok true
  /\ regexp.MatchString "vendor/pkg" "vendor" = Ok false.
Proof. split; reflexivity. Qed.

Example bad_patterns :
  regexp.MatchString "*a" "a" = Fatal /\ regexp.MatchString "a**" "a" = Fatal
  /\ regexp.MatchString "(a)" "a" = Beyond.
Proof. repeat split; reflexivity. Qed.

(** ** The classifier *)

(** C2.  An anchor whose URL has the directory shape [.../tree/main/a/b]
    is classified as a directory, but not one named [a/b]: package main
    names it [tree/main/a] (it starts at the segment [tree] and drops the
    last one), package commands [main/a/b] (it starts at the ref).  The
    file half holds in both packages: for [.../blob/main/a/b/file.go] with
    the label [file.go] and the extension [.go], the result is a file
    named [file] whose directory is named [a/b]. *)
Theorem C2_directory_name_keeps_ref_segment :
  Main.CheckLink (row "/o/r/tree/main/a/b" "b") ".go" []
    = Ok (EDir (mkMDDir "tree/main/a" "https://github.com/o/r/tree/main/a"))
  /\ Commands.CheckLink (row "/o/r/tree/main/a/b" "b") ".go" []
    = Ok (EDir (mkMDDir "main/a/b" "https://github.com/o/r/tree/main/a/b"))
  /\ Main.CheckLink (row "/o/r/blob/main/a/b/file.go" "file.go") ".go" []
    = Ok (EFile (mkMDFile "https://github.com/o/r/blob/main/a/b/file.go" "file"
                          (mkMDDir "a/b" "https://github.com/o/r/blob/main/a/b")))
  /\ Commands.CheckLink (row "/o/r/blob/main/a/b/file.go" "file.go") ".go" []
    = Ok (EFile (mkMDFile "https://github.com/o/r/blob/main/a/b/file.go" "file"
                          (mkMDDir "a/b" ""))).
Proof. repeat split; vm_compute; reflexivity. Qed.

(** C3.  With the ignore list [["vendor"]], package main keeps links
    whose directory name contains [vendor]: a file under [vendor/pkg] and
    the directory [vendor/lib] are both returned, because [IsContains]
    there searches the ignore entry for the directory name.  Package
    commands discards both. *)
Theorem C3_main_keeps_ignored_links :
  Main.CheckLink (row "/o/r/blob/main/vendor/pkg/x.go" "x.go") ".go" ["vendor"]
    = Ok (EFile (mkMDFile "https://github.com/o/r/blob/main/vendor/pkg/x.go" "x"
                          (mkMDDir "vendor/pkg" "https://github.com/o/r/blob/main/vendor/pkg")))
  /\ Main.CheckLink (row "/o/r/tree/main/vendor/lib" "lib") ".go" ["vendor"]
    = Ok (EDir (mkMDDir "tree/main/vendor" "https://github.com/o/r/tree/main/vendor"))
  /\ Commands.CheckLink (row "/o/r/blob/main/vendor/pkg/x.go" "x.go") ".go" ["vendor"]
    = Ok ENil
  /\ Commands.CheckLink (row "/o/r/tree/main/vendor/lib" "lib") ".go" ["vendor"]
    = Ok ENil.
Proof. repeat split; vm_compute; reflexivity. Qed.

(** C4.  On an anchor that has an href and no first child, [CheckLink]
    panics in both packages: [n.FirstChild.Data] dereferences nil. *)
Theorem C4_anchor_without_child_panics :
  Main.CheckLink (empty_anchor "/o/r/tree/main/a") ".go" [] = Panic
  /\ Commands.CheckLink (empty_anchor "/o/r/tree/main/a") ".go" [] = Panic.
Proof. split; vm_compute; reflexivity. Qed.

(** C5.  In package commands the parent directory of a file has an empty
    href: for [.../blob/main/a/b/file.go] the result carries the
    directory name [a/b] and the href [""], where package main gives
    [https://github.com/o/r/blob/main/a/b]. *)
Theorem C5_commands_parent_href_empty :
  Commands.CheckLink (row "/o/r/blob/main/a/b/file.go" "file.go") ".go" []
    = Ok (EFile (mkMDFile "https://github.com/o/r/blob/main/a/b/file.go" "file"
                          (mkMDDir "a/b" "")))
  /\ Main.CheckLink (row "/o/r/blob/main/a/b/file.go" "file.go") ".go" []
    = Ok (EFile (mkMDFile "https://github.com/o/r/blob/main/a/b/file.go" "file"
                          (mkMDDir "a/b" "https://github.com/o/r/blob/main/a/b"))).
Proof. split; vm_compute; reflexivity. Qed.

(** *** What holds of the classifier on every input *)

Lemma bind_Ok {A B : Type} (m : outcome A) (k : A -> outcome B) (b : B) :
  bind m k = Ok b -> exists a, m = Ok a /\ k a = Ok b.
Proof. destruct m; simpl; intros H; try discriminate. eauto. Qed.

Ltac bind_inv H :=
  let a := fresh "a" in
  let Ha := fresh "Ha" in
  apply bind_Ok in H; destruct H as (a & Ha & H).

(** The empty pattern is found in every text. *)
Lemma MatchString_empty_pattern (s : string) : regexp.MatchString "" s = Ok true.
Proof.
  unfold regexp.MatchString, regexp.Match. cbn [regexp.Compile regexp.parse List.rev].
  destruct (utf8.runes s); reflexivity.
Qed.

Lemma Main_IsContains_empty_name (elements : list string) :
  elements <> [] -> Main.IsContains elements "" = Ok true.
Proof.
  destruct elements as [|e rest]; [congruence|]. intros _.
  cbn [Main.IsContains]. rewrite MatchString_empty_pattern. reflexivity.
Qed.

(** In package commands a link is discarded as soon as one entry of the
    ignore list is found in its directory name, when the entries before
    that one are patterns the model reads and Go accepts. *)
Lemma Commands_IsContains_found (before after : list string) (p name : string) :
  Forall (fun q => regexp.MatchString q name = Ok false) before ->
  regexp.MatchString p name = Ok true ->
  Commands.IsContains (before ++ p :: after) name = Ok true.
Proof.
  intros Hb Hp. unfold Commands.IsContains.
  replace (len (before ++ p :: after) =? 0) with false.
  2:{ symmetry. apply Z.eqb_neq. unfold len. rewrite length_app. simpl. lia. }
  induction Hb as [|q before Hq Hb IH]; cbn [app Commands.IsContains_loop].
  - rewrite Hp. reflexivity.
  - rewrite Hq. exact IH.
Qed.

Lemma Commands_ignore_prunes (n : Node) (extension : string) (v : Commands.vars)
    (before after : list string) (p : string) :
  Commands.scan n extension = Ok v ->
  Forall (fun q => regexp.MatchString q (Commands.dirname v) = Ok false) before ->
  regexp.MatchString p (Commands.dirname v) = Ok true ->
  Commands.CheckLink n extension (before ++ p :: after) = Ok ENil.
Proof.
  intros Hs Hb Hp. unfold Commands.CheckLink. rewrite Hs. simpl.
  unfold Commands.decide_link.
  destruct (Commands.hasRightStyles v); simpl; [|reflexivity].
  rewrite (Commands_IsContains_found _ _ _ _ Hb Hp). reflexivity.
Qed.

(** A round of the attribute loop on an href, at a node without a first
    child, does not complete. *)
Lemma Main_attr_loop_no_child (n : Node) mf md (attrs : list Attribute) (v : Main.vars) :
  FirstChild n = None ->
  (exists a, In a attrs /\ Key a = "href") ->
  forall v', Main.attr_loop n mf md attrs v <> Ok v'.
Proof.
  intros Hn. revert v. induction attrs as [|a attrs IH]; intros v (b & Hin & Hk) v' H.
  - destruct Hin.
  - simpl in H. bind_inv H.
    destruct (String.eqb (Key a) "href") eqn:Ea.
    + unfold Main.attr_step in Ha. rewrite Ea, Hn in Ha. discriminate.
    + destruct Hin as [->|Hin]; [rewrite Hk in Ea; discriminate|].
      eapply IH; eauto.
Qed.

Lemma Commands_attr_loop_no_child (n : Node) mf md (attrs : list Attribute)
    (v : Commands.vars) :
  FirstChild n = None ->
  (exists a, In a attrs /\ Key a = "href") ->
  forall v', Commands.attr_loop n mf md attrs v <> Ok v'.
Proof.
  intros Hn. revert v. induction attrs as [|a attrs IH]; intros v (b & Hin & Hk) v' H.
  - destruct Hin.
  - simpl in H. bind_inv H.
    destruct (String.eqb (Key a) "href") eqn:Ea.
    + unfold Commands.attr_step in Ha. rewrite Ea, Hn in Ha. discriminate.
    + destruct Hin as [->|Hin]; [rewrite Hk in Ea; discriminate|].
      eapply IH; eauto.
Qed.

(** No node with an href attribute and no first child is classified, in
    either package, whatever the extension and the ignore list. *)
Lemma CheckLink_no_child_never_returns (n : Node) (extension : string)
    (ignoreDirs : list string) :
  FirstChild n = None ->
  (exists a, In a (Attr n) /\ Key a = "href") ->
  forall e, Main.CheckLink n extension ignoreDirs <> Ok e
            /\ Commands.CheckLink n extension ignoreDirs <> Ok e.
Proof.
  intros Hn Hh e. split; intros H.
  - unfold Main.CheckLink in H. bind_inv H. unfold Main.scan in Ha.
    bind_inv Ha. bind_inv Ha.
    eapply Main_attr_loop_no_child; eauto.
  - unfold Commands.CheckLink in H. bind_inv H. unfold Commands.scan in Ha.
    bind_inv Ha. bind_inv Ha.
    eapply Commands_attr_loop_no_child; eauto.
Qed.

(** No round of the loop of package commands assigns [dirhref]. *)
Lemma Commands_attr_step_dirhref (n : Node) mf md (v v' : Commands.vars) (a : Attribute) :
  Commands.attr_step n mf md v a = Ok v' -> Commands.dirhref v' = Commands.dirhref v.
Proof.
  unfold Commands.attr_step. intros H.
  repeat match type of H with
         | bind _ _ = Ok _ => bind_inv H
         | (if ?c then _ else _) = Ok _ => destruct c
         | Ok _ = Ok _ => injection H as <-
         end; reflexivity.
Qed.

Lemma Commands_attr_loop_dirhref (n : Node) mf md (attrs : list Attribute)
    (v v' : Commands.vars) :
  Commands.attr_loop n mf md attrs v = Ok v' -> Commands.dirhref v' = Commands.dirhref v.
Proof.
  revert v. induction attrs as [|a attrs IH]; simpl; intros v H.
  - injection H as <-. reflexivity.
  - bind_inv H. rewrite (IH _ H). eapply Commands_attr_step_dirhref; eauto.
Qed.

(** Every file package commands returns has a parent directory with the
    empty href. *)
Lemma Commands_file_parent_href_empty (n : Node) (extension : string)
    (ignoreDirs : list string) (f : MDFile) :
  Commands.CheckLink n extension ignoreDirs = Ok (EFile f) ->
  dir_href (file_dir f) = "".
Proof.
  unfold Commands.CheckLink. intros H. bind_inv H.
  unfold Commands.scan in Ha. bind_inv Ha. bind_inv Ha.
  apply Commands_attr_loop_dirhref in Ha. simpl in Ha.
  unfold Commands.decide_link in H.
  repeat match type of H with
         | bind _ _ = Ok _ => bind_inv H
         | (if ?c then _ else _) = Ok _ => destruct c
         | Ok _ = Ok _ => injection H as <-
         | _ => discriminate
         end.
  simpl. exact Ha.
Qed.

(** C10.  Without an [--ignore] flag package main runs with the ignore
    list [[""]]; on a list that holds the empty string its [IsContains]
    answers true for the empty directory name, so a link whose directory
    name is empty, as that of a file at the root of the repository, is
    discarded.  Package commands turns the empty flag into the empty
    list, on which [IsContains] answers false, and a styled link with the
    shape of a file or of a directory is not discarded. *)
Theorem C10_empty_ignore_flag (n : Node) (extension : string) (elements : list string)
    (vm : Main.vars) (vc : Commands.vars) :
  In "" elements ->
  Main.scan n extension = Ok vm ->
  Main.dirname vm = "" ->
  Commands.scan n extension = Ok vc ->
  Commands.hasRightStyles vc = true ->
  Commands.isTrackedFile vc || Commands.isDir vc = true ->
  Main.ignoreDirs_of_flag "" = [""]
  /\ Main.IsContains elements "" = Ok true
  /\ Main.CheckLink n extension (Main.ignoreDirs_of_flag "") = Ok ENil
  /\ Commands.getIgnoreDirs "" = Ok []
  /\ (forall name, Commands.IsContains [] name = Ok false)
  /\ Commands.CheckLink n extension [] <> Ok ENil.
Proof.
  intros Hin Hm Hd Hc Hs Hf.
  split; [reflexivity|].
  split; [apply Main_IsContains_empty_name; intros ->; destruct Hin|].
  split.
  { unfold Main.CheckLink. rewrite Hm. cbn [bind]. unfold Main.decide_link.
    rewrite Hd. rewrite Main_IsContains_empty_name by discriminate. reflexivity. }
  split; [reflexivity|].
  split; [reflexivity|].
  unfold Commands.CheckLink. rewrite Hc. cbn [bind]. unfold Commands.decide_link.
  rewrite Hs. cbn.
  destruct (Commands.isTrackedFile vc); cbn in Hf |- *.
  - destruct (str_upto _ _); cbn; discriminate.
  - rewrite Hf. discriminate.
Qed.

Lemma C10_empty_ignore_flag_witness :
  Main.CheckLink (row "/o/r/blob/main/file.go" "file.go") ".go" (Main.ignoreDirs_of_flag "")
    = Ok ENil
  /\ Commands.CheckLink (row "/o/r/blob/main/file.go" "file.go") ".go" [] <> Ok ENil.
Proof.
  pose proof (C10_empty_ignore_flag (row "/o/r/blob/main/file.go" "file.go") ".go" [""]
    (Main.mkVars true true false "https://github.com/o/r/blob/main/file.go" "file.go" ""
                 "https://github.com/o/r/blob/main")
    (Commands.mkVars true true false "https://github.com/o/r/blob/main/file.go" "file.go" "" "")
    (or_introl eq_refl) eq_refl eq_refl eq_refl eq_refl eq_refl) as H.
  split; [apply H | apply H].
Defined.

(** ** The hrefs the classifier builds *)

Lemma Main_attr_step_dirhref (n : Node) mf md (v v' : Main.vars) (a : Attribute) :
  dirhref_derived v -> Main.attr_step n mf md v a = Ok v' -> dirhref_derived v'.
Proof.
  intros Hv H. unfold Main.attr_step in H.
  destruct (String.eqb (Key a) "href").
  - apply bind_Ok in H as (label & _ & H).
    apply bind_Ok in H as (v1 & Hv1 & H).
    assert (Main.fhref v1 = String.append origin (Val a)) as Hf.
    { repeat match type of Hv1 with
             | bind _ _ = Ok _ => bind_inv Hv1
             | (if ?c then _ else _) = Ok _ => destruct c
             | Ok _ = Ok _ => injection Hv1 as <-
             end; reflexivity. }
    destruct (Main.isDir v1 || Main.isTrackedFile v1) eqn:Hflags.
    + apply bind_Ok in H as (seg & Hseg & H). injection H as <-. intros _. cbn.
      exists (Val a), seg. rewrite Hf. split; [reflexivity|]. split; [exact Hseg | reflexivity].
    + injection H as <-. intros Hflags'. rewrite Hflags in Hflags'. discriminate.
  - destruct (String.eqb (Key a) "class").
    + destruct (String.eqb (Val a) rowStyle); injection H as <-; exact Hv.
    + injection H as <-. exact Hv.
Qed.

Lemma Main_attr_loop_dirhref (n : Node) mf md (attrs : list Attribute) :
  forall v v',
    dirhref_derived v -> Main.attr_loop n mf md attrs v = Ok v' -> dirhref_derived v'.
Proof.
  induction attrs as [|a attrs IH]; cbn [Main.attr_loop]; intros v v' Hv H.
  - injection H as <-. exact Hv.
  - apply bind_Ok in H as (v1 & Hv1 & H). eapply IH; [|exact H].
    eapply Main_attr_step_dirhref; eauto.
Qed.

Lemma Main_scan_dirhref (n : Node) (extension : string) (v : Main.vars) :
  Main.scan n extension = Ok v -> dirhref_derived v.
Proof.
  unfold Main.scan. intros H.
  apply bind_Ok in H as (mf & _ & H). apply bind_Ok in H as (md & _ & H).
  eapply Main_attr_loop_dirhref; [|exact H]. intros Hflags. discriminate.
Qed.

(** Every link package main returns carries, as the href of the
    directory, the URL of its row without the last segment: for a file
    this is the directory the file is in, for a directory it is the
    parent of the directory, not the directory. *)
Lemma Main_href_drops_last_segment (n : Node) (extension : string)
    (ignoreDirs : list string) (e : Element) :
  Main.CheckLink n extension ignoreDirs = Ok e ->
  e <> ENil ->
  exists (v : Main.vars) (val : string) (seg : list string),
    Main.scan n extension = Ok v
    /\ Main.fhref v = (origin ++ val)%string
    /\ slice (strings.Split (Main.fhref v) "/") 0
             (len (strings.Split (Main.fhref v) "/") - 1) = Ok seg
    /\ match e with
       | EFile f => file_href f = Main.fhref v /\ dir_href (file_dir f) = strings.Join seg "/"
       | EDir d => dir_href d = strings.Join seg "/"
       | ENil => False
       end.
Proof.
  unfold Main.CheckLink. intros H Hne. apply bind_Ok in H as (v & Ha & H).
  pose proof (Main_scan_dirhref n extension v Ha) as Hd.
  unfold Main.decide_link in H. apply bind_Ok in H as (ignored & _ & H).
  destruct ignored; [injection H as <-; congruence|].
  destruct (Main.hasRightStyles v); cbn [andb] in H.
  - destruct (Main.isTrackedFile v) eqn:Ef.
    + apply bind_Ok in H as (name & _ & H). injection H as <-.
      destruct Hd as (val & seg & Hval & Hseg & Hj); [rewrite Ef; apply orb_true_r|].
      exists v, val, seg. cbn. auto.
    + destruct (Main.isDir v) eqn:Ed; injection H as <-; [|congruence].
      destruct Hd as (val & seg & Hval & Hseg & Hj); [rewrite Ed; reflexivity|].
      exists v, val, seg. cbn. auto.
  - injection H as <-. congruence.
Qed.

Lemma split_go_nonempty (sep s cur : string) (jump : nat) :
  strings.split_go sep s cur jump <> [].
Proof.
  revert cur jump. induction s as [|c s IH]; intros cur jump; cbn [strings.split_go].
  - discriminate.
  - destruct jump; [|apply IH].
    destruct (strings.HasPrefix _ _); [discriminate | apply IH].
Qed.

(** An absolute URL of the site has at least three segments, and what is
    left of it without the last one is not empty. *)
Lemma parent_of_site_url_nonempty (val : string) (seg : list string) :
  slice (strings.Split (origin ++ val)%string "/") 0
        (len (strings.Split (origin ++ val)%string "/") - 1) = Ok seg ->
  strings.Join seg "/" <> "".
Proof.
  assert (exists x rest, strings.Split (origin ++ val) "/" = "https:" :: "" :: x :: rest)
    as (x & rest & ->).
  { pose proof (split_go_nonempty "/" (String.append "github.com" val) "" 0) as Hne.
    change (strings.Split (origin ++ val)%string "/")
      with ("https:" :: "" :: strings.split_go "/" (String.append "github.com" val) "" 0).
    destruct (strings.split_go _ _ _ _) as [|x rest]; [congruence|]. eauto. }
  unfold slice, len. cbn [length].
  destruct (_ && _); [|discriminate]. intros H. injection H as <-.
  replace (Z.to_nat (Z.of_nat (S (S (S (length rest)))) - 1 - 0)) with (S (S (length rest))) by lia.
  cbn. discriminate.
Qed.

(** Every file package main returns has a parent directory whose href is
    the URL of the file without its last segment, and is not empty. *)
Lemma Main_file_parent_href_derived (n : Node) (extension : string)
    (ignoreDirs : list string) (f : MDFile) :
  Main.CheckLink n extension ignoreDirs = Ok (EFile f) ->
  exists seg,
    slice (strings.Split (file_href f) "/") 0
          (len (strings.Split (file_href f) "/") - 1) = Ok seg
    /\ dir_href (file_dir f) = strings.Join seg "/"
    /\ dir_href (file_dir f) <> "".
Proof.
  intros H.
  destruct (Main_href_drops_last_segment n extension ignoreDirs _ H)
    as (v & val & seg & _ & Hval & Hseg & Hf & Hd); [discriminate|].
  exists seg. rewrite Hf, Hd. split; [exact Hseg|]. split; [reflexivity|].
  rewrite Hval in Hseg. eapply parent_of_site_url_nonempty; exact Hseg.
Qed.

(** In package commands the href of a directory is the URL of its row. *)
Lemma Commands_dir_href_is_row_url (n : Node) (extension : string)
    (ignoreDirs : list string) (d : MDDir) :
  Commands.CheckLink n extension ignoreDirs = Ok (EDir d) ->
  exists v, Commands.scan n extension = Ok v /\ dir_href d = Commands.href v.
Proof.
  unfold Commands.CheckLink. intros H. apply bind_Ok in H as (v & Hv & H).
  exists v. split; [exact Hv|].
  unfold Commands.decide_link in H.
  repeat match type of H with
         | bind _ _ = Ok _ => bind_inv H
         | (if ?c then _ else _) = Ok _ => destruct c
         | Ok _ = Ok _ => injection H as <-
         | _ => discriminate
         end.
  reflexivity.
Qed.

(** ** The grouper *)

(** The group of a directory is the files of that very directory, in the
    order of the input; a directory without a file has no group. *)
Lemma group_fold_lookup (files : list MDFile) (m : gmap MDDir (list MDFile)) (d : MDDir) :
  fold_left (fun grouped f =>
               <[file_dir f := (default [] (grouped !! file_dir f) ++ [f])%list]> grouped)
            files m !! d
  = match List.filter (fun f => bool_decide (file_dir f = d)) files with
    | [] => m !! d
    | l => Some (default [] (m !! d) ++ l)%list
    end.
Proof.
  revert m. induction files as [|f files IH]; intros m; [reflexivity|].
  cbn [fold_left List.filter]. rewrite IH. case_bool_decide as Hd.
  - subst d. rewrite lookup_insert_eq.
    destruct (List.filter _ files); [reflexivity|].
    simpl. rewrite <- app_assoc. reflexivity.
  - rewrite lookup_insert_ne by exact Hd. reflexivity.
Qed.

Lemma GroupByDir_lookup (files : list MDFile) (d : MDDir) :
  Main.GroupByDir files !! d
  = match List.filter (fun f => bool_decide (file_dir f = d)) files with
    | [] => None
    | l => Some l
    end.
Proof.
  unfold Main.GroupByDir. rewrite group_fold_lookup, lookup_empty. reflexivity.
Qed.

Lemma Commands_GroupByDir_eq (files : list MDFile) :
  Commands.GroupByDir files = Main.GroupByDir files.
Proof. reflexivity. Qed.

Lemma same_group_iff (files : list MDFile) (f1 f2 : MDFile) :
  In f1 files -> In f2 files ->
  (same_group (Main.GroupByDir files) f1 f2 <-> file_dir f1 = file_dir f2).
Proof.
  intros H1 H2. split.
  - intros (d & l & Hl & Hf1 & Hf2). rewrite GroupByDir_lookup in Hl.
    assert (l = List.filter (fun f => bool_decide (file_dir f = d)) files) as ->.
    { destruct (List.filter _ files); congruence. }
    apply filter_In in Hf1, Hf2.
    destruct Hf1 as [_ E1], Hf2 as [_ E2].
    apply bool_decide_eq_true in E1, E2. congruence.
  - intros E. exists (file_dir f1), (List.filter (fun f => bool_decide (file_dir f = file_dir f1)) files).
    assert (In f1 (List.filter (fun f => bool_decide (file_dir f = file_dir f1)) files)) as I1.
    { apply filter_In. split; [exact H1|]. apply bool_decide_eq_true. reflexivity. }
    assert (In f2 (List.filter (fun f => bool_decide (file_dir f = file_dir f1)) files)) as I2.
    { apply filter_In. split; [exact H2|]. apply bool_decide_eq_true. congruence. }
    split; [|split; assumption].
    rewrite GroupByDir_lookup. destruct (List.filter _ files); [destruct I1 | reflexivity].
Qed.

(** C6, as the code has it.  [GroupByDir] puts two files of its input in
    the same group if and only if their parent directories are the same
    [MDDir] value, name and href both; this holds in both packages. *)
Theorem C6_same_group_iff_same_directory (files : list MDFile) (f1 f2 : MDFile) :
  In f1 files -> In f2 files ->
  (same_group (Main.GroupByDir files) f1 f2 <-> file_dir f1 = file_dir f2)
  /\ (same_group (Commands.GroupByDir files) f1 f2 <-> file_dir f1 = file_dir f2).
Proof.
  intros H1 H2. split; [|change (Commands.GroupByDir files) with (Main.GroupByDir files)];
    apply same_group_iff; assumption.
Qed.

Lemma C6_same_group_iff_same_directory_witness :
  same_group (Main.GroupByDir [file_on_main; file_on_dev; file_on_main])
             file_on_main file_on_main.
Proof.
  destruct (C6_same_group_iff_same_directory [file_on_main; file_on_dev; file_on_main]
              file_on_main file_on_main (or_introl eq_refl) (or_introl eq_refl))
    as [[_ H] _].
  apply H. reflexivity.
Defined.

(** C6, as stated, fails: package main classifies two rows into two files
    whose parent directories have the same name, [a], and different
    hrefs, and [GroupByDir] puts them in different groups. *)
Lemma C6_same_name_different_groups :
  Main.CheckLink (row "/o/r/blob/main/a/x.go" "x.go") ".go" [] = Ok (EFile file_on_main)
  /\ Main.CheckLink (row "/o/r/blob/dev/a/y.go" "y.go") ".go" [] = Ok (EFile file_on_dev)
  /\ dir_name (file_dir file_on_main) = dir_name (file_dir file_on_dev)
  /\ ~ same_group (Main.GroupByDir [file_on_main; file_on_dev]) file_on_main file_on_dev.
Proof.
  split; [vm_compute; reflexivity|].
  split; [vm_compute; reflexivity|].
  split; [reflexivity|].
  intros H. apply same_group_iff in H; [discriminate | left; reflexivity | right; left; reflexivity].
Qed.

(** ** The page extractor *)

Lemma Node_ind (P : Node -> Prop) :
  (forall t d a cs, Forall P cs -> P (mkNode t d a cs)) -> forall n, P n.
Proof.
  intros H. fix IH 1. intros [t d a cs]. apply H.
  induction cs as [|c cs IHcs]; constructor; [apply IH | exact IHcs].
Qed.

Lemma mapM_app {A B : Type} (f : A -> outcome B) (l1 l2 : list A) :
  mapM f (l1 ++ l2)
  = (let* r1 := mapM f l1 in let* r2 := mapM f l2 in Ok (r1 ++ r2)%list).
Proof.
  induction l1 as [|a l1 IH]; cbn [mapM app bind].
  - destruct (mapM f l2); reflexivity.
  - destruct (f a); cbn [bind]; try reflexivity.
    rewrite IH. destruct (mapM f l1); cbn [bind]; try reflexivity.
    destruct (mapM f l2); reflexivity.
Qed.

Section Walk.

Variable classify : Node -> outcome Element.
Variable keep : Element -> list Element.

Lemma ForEachNode_visit (n : Node) :
  forall files,
    ForEachNode n (visit_with classify keep) files
    = (let* links := mapM classify (anchors n) in Ok (files ++ flat_map keep links)%list).
Proof.
  induction n as [t d a cs IH] using Node_ind. intros files.
  assert (forall cs', Forall (fun c => forall files,
            ForEachNode c (visit_with classify keep) files
            = (let* links := mapM classify (anchors c) in
               Ok (files ++ flat_map keep links)%list)) cs' ->
          forall st,
            (fix siblings (cs : list Node) (st : list Element) : outcome (list Element) :=
               match cs with
               | [] => Ok st
               | c :: cs' => let* st' := ForEachNode c (visit_with classify keep) st in siblings cs' st'
               end) cs' st
            = (let* links := mapM classify (List.filter is_anchor (flat_map preorder cs')) in
               Ok (st ++ flat_map keep links)%list)) as Hsib.
  { clear. intros cs' H. induction H as [|c cs' Hc _ IHcs]; intros st.
    - cbn. rewrite app_nil_r. reflexivity.
    - cbn [flat_map]. rewrite List.filter_app, mapM_app, Hc.
      fold (anchors c). destruct (mapM classify (anchors c)) as [r1| | |]; cbn [bind]; try reflexivity.
      rewrite IHcs.
      destruct (mapM classify _) as [r2| | |]; cbn [bind]; try reflexivity.
      rewrite flat_map_app, app_assoc. reflexivity. }
  cbn [ForEachNode]. unfold anchors. cbn [preorder List.filter].
  unfold visit_with at 1.
  destruct (is_anchor (mkNode t d a cs)).
  - cbn [mapM]. destruct (classify (mkNode t d a cs)) as [e| | |]; cbn [bind]; try reflexivity.
    rewrite (Hsib cs IH).
    destruct (mapM classify _) as [r| | |]; cbn [bind]; try reflexivity.
    cbn [flat_map]. rewrite app_assoc. reflexivity.
  - cbn [bind]. apply (Hsib cs IH).
Qed.

End Walk.

Lemma ForEachNode_ext {S : Type} (f g : Node -> S -> outcome S) :
  (forall n st, f n st = g n st) ->
  forall n st, ForEachNode n f st = ForEachNode n g st.
Proof.
  intros Hfg n. induction n as [t d a cs IH] using Node_ind. intros st.
  cbn [ForEachNode]. rewrite Hfg. destruct (g _ st) as [st1| | |]; cbn [bind]; try reflexivity.
  revert st1. induction IH as [|c cs Hc _ IHcs]; intros st1; [reflexivity|].
  rewrite Hc. destruct (ForEachNode c g st1); cbn [bind]; try reflexivity.
  apply IHcs.
Qed.

Lemma flat_map_keep_all (l : list Element) : flat_map keep_all l = l.
Proof. induction l as [|e l IH]; [reflexivity|]. cbn. rewrite IH. reflexivity. Qed.

Lemma flat_map_keep_non_nil (l : list Element) :
  flat_map keep_non_nil l = List.filter non_nil l.
Proof.
  induction l as [|e l IH]; [reflexivity|]. cbn [flat_map List.filter].
  rewrite IH. unfold keep_non_nil. destruct (non_nil e); reflexivity.
Qed.

Lemma Main_walk (doc : Node) (extension : string) (ignoreDirs : list string) :
  ForEachNode doc (Main.visitNode extension ignoreDirs) []
  = mapM (fun n => Main.CheckLink n extension ignoreDirs) (anchors doc).
Proof.
  change (Main.visitNode extension ignoreDirs)
    with (visit_with (fun n => Main.CheckLink n extension ignoreDirs) keep_all).
  rewrite ForEachNode_visit.
  destruct (mapM _ (anchors doc)); cbn [bind]; try reflexivity.
  rewrite flat_map_keep_all. reflexivity.
Qed.

Lemma Commands_walk (doc : Node) (extension : string) (ignoreDirs : list string) :
  ForEachNode doc (Commands.visitNode extension ignoreDirs) []
  = (let* links := mapM (fun n => Commands.CheckLink n extension ignoreDirs) (anchors doc) in
     Ok (List.filter non_nil links)).
Proof.
  rewrite (ForEachNode_ext _
             (visit_with (fun n => Commands.CheckLink n extension ignoreDirs) keep_non_nil)).
  - rewrite ForEachNode_visit.
    destruct (mapM _ (anchors doc)); cbn [bind]; try reflexivity.
    rewrite flat_map_keep_non_nil. reflexivity.
  - intros n st. unfold Commands.visitNode, visit_with.
    destruct (is_anchor n); [|reflexivity].
    destruct (Commands.CheckLink n extension ignoreDirs) as [[| |]| | |]; cbn;
      rewrite ?app_nil_r; reflexivity.
Qed.

(** On a page that is fetched and parsed, [Extract] of package commands
    returns the results of the classifier on the anchors of the page that
    are not nil, in the order of the pre-order walk; [Extract] of package
    main returns the result on every anchor, nil ones included, in that
    order.  Either stops with the first failure of the classifier. *)
Lemma Extract_is_classifier_on_anchors (web : string -> response)
    (url extension : string) (ignoreDirs : list string) (doc : Node) :
  web url = Response StatusOK (Some doc) ->
  Commands.Extract web url extension ignoreDirs
    = (let* links := mapM (fun n => Commands.CheckLink n extension ignoreDirs) (anchors doc) in
       Ok (List.filter non_nil links))
  /\ Main.Extract web url extension ignoreDirs
    = mapM (fun n => Main.CheckLink n extension ignoreDirs) (anchors doc).
Proof.
  intros Hw. unfold Commands.Extract, Main.Extract. rewrite Hw. cbn [negb Z.eqb StatusOK].
  split; [apply Commands_walk | apply Main_walk].
Qed.

Lemma Extract_on_plain_site :
  Commands.Extract plain_site "https://github.com/o/r" ".go" [] = Ok []
  /\ Main.Extract plain_site "https://github.com/o/r" ".go" [] = Ok [ENil].
Proof.
  destruct (Extract_is_classifier_on_anchors plain_site "https://github.com/o/r" ".go" []
              plain_page eq_refl) as [Hc Hm].
  split; [rewrite Hc | rewrite Hm]; vm_compute; reflexivity.
Qed.

(** What [Extract] of package commands returns holds no nil, on every
    page. *)
Lemma Commands_Extract_has_no_nil (web : string -> response)
    (url extension : string) (ignoreDirs : list string) (links : list Element) :
  Commands.Extract web url extension ignoreDirs = Ok links -> ~ In ENil links.
Proof.
  unfold Commands.Extract.
  destruct (web url) as [|code [doc|]]; try discriminate.
  - destruct (negb (code =? StatusOK)); [discriminate|].
    rewrite Commands_walk. intros H. apply bind_Ok in H as (all & _ & H).
    injection H as <-. intros Hin. apply filter_In in Hin as [_ Hnil]. discriminate Hnil.
  - destruct (negb (code =? StatusOK)); discriminate.
Qed.

(** C7.  [Extract] of package main returns the nil results of the
    classifier with the others.  The one anchor of the page is no listing
    row and the classifier returns nil for it; [Extract] of package main
    returns a sequence that holds this nil, where the sequence of the
    non-nil results is empty, which is what [Extract] of package commands
    returns on the same page. *)
Theorem C7_main_extract_returns_nil :
  anchors plain_page
    = [mkNode ElementNode "a" [mkAttr "href" "/o/r/issues"] [text "Issues"]]
  /\ Main.CheckLink (mkNode ElementNode "a" [mkAttr "href" "/o/r/issues"] [text "Issues"]) ".go" []
     = Ok ENil
  /\ Main.Extract plain_site "https://github.com/o/r" ".go" [] = Ok [ENil]
  /\ (exists links,
        Main.Extract plain_site "https://github.com/o/r" ".go" [] = Ok links
        /\ In ENil links
        /\ links <> List.filter non_nil links)
  /\ Commands.Extract plain_site "https://github.com/o/r" ".go" [] = Ok [].
Proof.
  split; [vm_compute; reflexivity|].
  split; [vm_compute; reflexivity|].
  split; [vm_compute; reflexivity|].
  split; [|vm_compute; reflexivity].
  exists [ENil]. split; [vm_compute; reflexivity|].
  split; [left; reflexivity | discriminate].
Qed.

(** ** The crawl engine *)

Lemma wrap64_small (z : Z) : - 2 ^ 63 <= z < 2 ^ 63 -> engine.wrap64 z = z.
Proof.
  intros H. unfold engine.wrap64.
  rewrite Z.mod_small by lia. lia.
Qed.

(** The inner loop: every directory of the batch is counted and started,
    every file is appended, nothing else changes. *)
Lemma fold_visit (batch : list Element) :
  forall st,
    0 <= engine.n st ->
    engine.n st + Z.of_nat (length (dir_hrefs batch)) < 2 ^ 63 ->
    fold_left engine.visit batch st
    = engine.mkState (engine.n st + Z.of_nat (length (dir_hrefs batch)))
                     (engine.inflight st ++ dir_hrefs batch)
                     (engine.results st ++ files_of batch)
                     (engine.dispatched st ++ dir_hrefs batch).
Proof.
  induction batch as [|e batch IH]; intros [n0 fl rs ds] Hn Hb; cbn [engine.n] in *.
  - cbn. rewrite Z.add_0_r, !app_nil_r. reflexivity.
  - destruct e as [|f|d]; cbn [fold_left engine.visit dir_hrefs files_of length] in *.
    + rewrite IH by assumption. reflexivity.
    + rewrite IH by assumption. cbn. rewrite <- app_assoc. reflexivity.
    + cbn [engine.n engine.inflight engine.results engine.dispatched].
      rewrite wrap64_small by lia.
      rewrite IH by (cbn [engine.n]; lia). cbn.
      rewrite <- !app_assoc. f_equal. lia.
Qed.

Lemma lookup_map {A B : Type} (f : A -> B) (l : list A) (i : nat) :
  map f l !! i = option_map f (l !! i).
Proof.
  revert i. induction l as [|a l IH]; intros [|i]; try reflexivity. apply IH.
Qed.

Lemma delete_map {A B : Type} (f : A -> B) (l : list A) (i : nat) :
  delete i (map f l) = map f (delete i l).
Proof.
  revert i. induction l as [|a l IH]; intros [|i]; try reflexivity.
  cbn. f_equal. apply IH.
Qed.

Lemma size_pos (t : dtree) : (1 <= size t)%nat.
Proof. destruct t. cbn. lia. Qed.

Lemma forest_size_cons (t : dtree) (F : list dtree) :
  forest_size (t :: F) = (size t + forest_size F)%nat.
Proof. reflexivity. Qed.

Lemma length_le_forest_size (F : list dtree) : (length F <= forest_size F)%nat.
Proof.
  induction F as [|t F IH]; [cbn; lia|].
  rewrite forest_size_cons. cbn [length]. pose proof (size_pos t). lia.
Qed.

Lemma forest_size_app (F G : list dtree) :
  forest_size (F ++ G) = (forest_size F + forest_size G)%nat.
Proof. unfold forest_size. rewrite map_app, list_sum_app. reflexivity. Qed.

Lemma forest_size_delete (F : list dtree) (i : nat) (t : dtree) :
  F !! i = Some t -> forest_size F = (size t + forest_size (delete i F))%nat.
Proof.
  revert i. induction F as [|t' F IH]; intros [|i] H; try discriminate.
  - injection H as ->. reflexivity.
  - cbn in H. apply IH in H.
    change (delete (S i) (t' :: F)) with (t' :: delete i F).
    rewrite !forest_size_cons, H. lia.
Qed.

Lemma urls_roots_below (F : list dtree) : flat_map urls F ≡ₚ map root F ++ below F.
Proof.
  unfold below. induction F as [|[u ks] F IH]; [reflexivity|].
  cbn [flat_map map urls root kids app].
  constructor. rewrite IH.
  rewrite !app_assoc. apply Permutation_app_tail, Permutation_app_comm.
Qed.

Lemma below_app (F G : list dtree) : below (F ++ G) = below F ++ below G.
Proof. unfold below. apply flat_map_app. Qed.

Lemma below_pick (F : list dtree) (i : nat) (u : string) (ks : list dtree) :
  F !! i = Some (DNode u ks) -> below F ≡ₚ flat_map urls ks ++ below (delete i F).
Proof.
  intros Ht. unfold below.
  exact (Permutation_flat_map (fun t => flat_map urls (kids t))
           (delete_Permutation F i _ Ht)).
Qed.

Lemma urls_pick (F : list dtree) (i : nat) (u : string) (ks : list dtree) :
  F !! i = Some (DNode u ks) ->
  flat_map urls F ≡ₚ (u :: flat_map urls ks) ++ flat_map urls (delete i F).
Proof.
  intros Ht. exact (Permutation_flat_map urls (delete_Permutation F i _ Ht)).
Qed.

Lemma unfolds_inv (Extract : string -> outcome (list Element)) (u : string)
    (ks : list dtree) :
  unfolds Extract (DNode u ks) = true ->
  exists batch, Extract u = Ok batch
                /\ dir_hrefs batch = map root ks
                /\ Forall (fun t => unfolds Extract t = true) ks.
Proof.
  cbn [unfolds]. destruct (Extract u) as [batch| | |]; try discriminate.
  intros H. apply andb_prop in H as [H1 H2].
  exists batch. split; [reflexivity|]. split; [apply bool_decide_eq_true in H1; exact H1|].
  apply List.Forall_forall. intros t Ht. rewrite forallb_forall in H2. apply H2. exact Ht.
Qed.

Section Engine_facts.

Variable Extract : string -> outcome (list Element).
Variable sched : nat -> nat.

Lemma loop_done (fuel k : nat) (st : engine.state) :
  engine.n st = 0 -> engine.loop Extract sched fuel k st = engine.Returned st.
Proof. intros H. destruct fuel; cbn [engine.loop]; rewrite H; reflexivity. Qed.

(** One receive: the goroutine the scheduler picks delivers the batch of
    its page, and the loop goes on from the state the batch leaves. *)
Lemma loop_step (fuel k i : nat) (st : engine.state) (u : string) (batch : list Element) :
  0 < engine.n st ->
  i = (sched k mod length (engine.inflight st))%nat ->
  engine.inflight st !! i = Some u ->
  Extract u = Ok batch ->
  engine.n st + Z.of_nat (length (dir_hrefs batch)) < 2 ^ 63 ->
  engine.loop Extract sched (S fuel) k st
  = engine.loop Extract sched fuel (S k)
      (engine.mkState (engine.n st + Z.of_nat (length (dir_hrefs batch)) - 1)
                      (delete i (engine.inflight st) ++ dir_hrefs batch)
                      (engine.results st ++ files_of batch)
                      (engine.dispatched st ++ dir_hrefs batch)).
Proof.
  intros Hn Hi Hu HE Hb. cbn [engine.loop].
  replace (engine.n st >? 0) with true by (symmetry; apply Z.gtb_lt; exact Hn).
  destruct (engine.inflight st) as [|u0 rest] eqn:Hfl; [destruct i; discriminate|].
  rewrite <- Hi, Hu, HE.
  rewrite fold_visit by (cbn [engine.n]; lia).
  cbn [engine.n engine.inflight engine.results engine.dispatched].
  rewrite wrap64_small by lia. reflexivity.
Qed.

Lemma loop_forest (fuel : nat) :
  forall (k : nat) (F : list dtree) (st : engine.state),
    Forall (fun t => unfolds Extract t = true) F ->
    engine.inflight st = map root F ->
    engine.n st = Z.of_nat (length F) ->
    (forest_size F <= fuel)%nat ->
    Z.of_nat (forest_size F) < 2 ^ 63 ->
    exists st',
      engine.loop Extract sched fuel k st = engine.Returned st'
      /\ engine.n st' = 0
      /\ engine.inflight st' = []
      /\ engine.dispatched st' ≡ₚ engine.dispatched st ++ below F
      /\ engine.results st'
         ≡ₚ engine.results st ++ flat_map (page_files Extract) (flat_map urls F).
Proof.
  induction fuel as [|fuel IH]; intros k F st HF Hfl Hn Hfuel Hbound.
  - pose proof (length_le_forest_size F) as Hl.
    destruct F; [|cbn [length] in Hl; lia].
    exists st. rewrite loop_done by exact Hn. cbn. rewrite !app_nil_r. auto.
  - destruct (decide (F = [])) as [->|Hne].
    { exists st. rewrite loop_done by exact Hn. cbn. rewrite !app_nil_r. auto. }
    assert (0 < length F)%nat as Hlen by (destruct F; [congruence | cbn; lia]).
    set (i := (sched k mod length (engine.inflight st))%nat).
    assert (i < length F)%nat as Hi.
    { subst i. rewrite Hfl, length_map. apply Nat.mod_upper_bound. lia. }
    destruct (lookup_lt_is_Some_2 F i Hi) as [[u ks] Ht].
    destruct (unfolds_inv Extract u ks) as (batch & HE & Hd & Hks).
    { rewrite List.Forall_forall in HF. apply HF.
      apply list_elem_of_In. eapply list_elem_of_lookup_2. exact Ht. }
    pose proof (forest_size_delete F i _ Ht) as Hsz.
    pose proof (length_le_forest_size (delete i F)) as Hld.
    pose proof (length_le_forest_size ks) as Hlk.
    pose proof (length_delete F i (ex_intro _ _ Ht)) as Hdel.
    cbn [size] in Hsz. fold (forest_size ks) in Hsz.
    assert (length (dir_hrefs batch) = length ks) as Hdl by (rewrite Hd; apply length_map).
    rewrite (loop_step fuel k i st u batch); try lia; try reflexivity.
    2:{ rewrite Hfl, lookup_map, Ht. reflexivity. }
    2:{ exact HE. }
    destruct (IH (S k) (delete i F ++ ks)
                (engine.mkState (engine.n st + Z.of_nat (length (dir_hrefs batch)) - 1)
                                (delete i (engine.inflight st) ++ dir_hrefs batch)
                                (engine.results st ++ files_of batch)
                                (engine.dispatched st ++ dir_hrefs batch)))
      as (st' & Hrun & Hn' & Hfl' & Hdis & Hres).
    + apply Forall_app. split; [apply Forall_delete; exact HF | exact Hks].
    + cbn [engine.inflight]. rewrite Hfl, Hd, delete_map, map_app. reflexivity.
    + cbn [engine.n]. rewrite length_app. lia.
    + rewrite forest_size_app. lia.
    + rewrite forest_size_app. lia.
    + exists st'. split; [exact Hrun|]. split; [exact Hn'|]. split; [exact Hfl'|].
      cbn [engine.dispatched engine.results] in Hdis, Hres.
      split.
      * rewrite Hdis, below_app, Hd, (below_pick F i u ks Ht), (urls_roots_below ks).
        rewrite <- !app_assoc. apply Permutation_app_head, Permutation_app_head.
        apply Permutation_app_comm.
      * rewrite Hres, (Permutation_flat_map _ (urls_pick F i u ks Ht)).
        rewrite !flat_map_app. cbn [flat_map app].
        unfold page_files at 3. rewrite HE.
        rewrite <- !app_assoc. apply Permutation_app_head, Permutation_app_head.
        apply Permutation_app_comm.
Qed.

End Engine_facts.

(** Whatever the order in which the goroutines deliver, a crawl of a
    site that unfolds to a finite tree returns, with the counter at 0 and
    no goroutine left; it has started one fetch for each node of the
    tree and it returns the files of the pages of all the nodes. *)
Lemma Crawl_walks_the_tree (Extract : string -> outcome (list Element))
    (sched : nat -> nat) (t : dtree) (fuel : nat) :
  unfolds Extract t = true ->
  Z.of_nat (size t) < 2 ^ 63 ->
  (size t <= fuel)%nat ->
  exists st,
    engine.Crawl Extract sched fuel (root t) = engine.Returned st
    /\ engine.n st = 0
    /\ engine.inflight st = []
    /\ engine.dispatched st ≡ₚ urls t
    /\ engine.results st ≡ₚ flat_map (page_files Extract) (urls t).
Proof.
  intros Hu Hb Hf. unfold engine.Crawl.
  destruct (loop_forest Extract sched fuel 0%nat [t]
              (engine.mkState 1 [root t] [] [root t]))
    as (st & Hrun & Hn & Hfl & Hdis & Hres).
  - constructor; [exact Hu | constructor].
  - reflexivity.
  - reflexivity.
  - rewrite forest_size_cons. change (forest_size []) with 0%nat. lia.
  - rewrite forest_size_cons. change (forest_size []) with 0%nat. lia.
  - exists st. split; [exact Hrun|]. split; [exact Hn|]. split; [exact Hfl|].
    cbn [engine.dispatched engine.results flat_map app] in Hdis, Hres.
    rewrite app_nil_r in Hres. split; [|exact Hres].
    rewrite Hdis. unfold below. cbn [flat_map]. rewrite app_nil_r.
    destruct t as [u ks]. reflexivity.
Qed.

Lemma dtree_ind (P : dtree -> Prop) :
  (forall u ks, Forall P ks -> P (DNode u ks)) -> forall t, P t.
Proof.
  intros H. fix IH 1. intros [u ks]. apply H.
  induction ks as [|k ks IHks]; constructor; [apply IH | exact IHks].
Qed.

Lemma length_urls (t : dtree) : length (urls t) = size t.
Proof.
  induction t as [u ks IH] using dtree_ind.
  cbn [urls size length]. f_equal.
  induction IH as [|k ks Hk _ IHks]; [reflexivity|].
  cbn [flat_map map list_sum]. rewrite length_app, Hk, IHks. reflexivity.
Qed.

(** In particular the number of fetches started is the number of nodes. *)
Lemma Crawl_one_fetch_per_node (Extract : string -> outcome (list Element))
    (sched : nat -> nat) (t : dtree) (fuel : nat) :
  unfolds Extract t = true ->
  Z.of_nat (size t) < 2 ^ 63 ->
  (size t <= fuel)%nat ->
  exists st,
    engine.Crawl Extract sched fuel (root t) = engine.Returned st
    /\ engine.n st = 0
    /\ length (engine.dispatched st) = size t.
Proof.
  intros Hu Hb Hf.
  destruct (Crawl_walks_the_tree Extract sched t fuel Hu Hb Hf)
    as (st & Hrun & Hn & _ & Hdis & _).
  exists st. split; [exact Hrun|]. split; [exact Hn|].
  rewrite (Permutation_length Hdis). apply length_urls.
Qed.

Lemma count_occ_flat_map_single {A B : Type} (da : forall x y : A, {x = y} + {x <> y})
    (db : forall x y : B, {x = y} + {x <> y}) (g : A -> list B) (a : A) (b : B) (l : list A) :
  count_occ db (g a) b = 1%nat ->
  (forall a', a' <> a -> ~ In b (g a')) ->
  count_occ db (flat_map g l) b = count_occ da l a.
Proof.
  intros H1 H0. induction l as [|x l IH]; [reflexivity|].
  cbn [flat_map count_occ]. rewrite count_occ_app, IH.
  destruct (da x a) as [->|Hne].
  - rewrite H1. reflexivity.
  - rewrite (proj1 (count_occ_not_In db (g x) b) (H0 x Hne)). reflexivity.
Qed.

(** When the site unfolds to a finite tree in which the URL [u] occurs
    at [k] nodes, the loop of [Crawl] starts [k] fetches of [u]; a file
    that the page of [u] lists once, and no other page lists, is [k] times
    in the result.  More generally the fetches started are the nodes of
    the tree and the result is the files of their pages, with
    repetitions: nothing is deduplicated. *)
Lemma Crawl_fetches_every_path (Extract : string -> outcome (list Element))
    (sched : nat -> nat) (t : dtree) (fuel : nat) (u : string) (f : MDFile) (k : nat) :
  unfolds Extract t = true ->
  Z.of_nat (size t) < 2 ^ 63 ->
  (size t <= fuel)%nat ->
  count_occ string_dec (urls t) u = k ->
  count_occ MDFile_eq_dec (page_files Extract u) f = 1%nat ->
  (forall v, v <> u -> ~ In f (page_files Extract v)) ->
  exists st,
    engine.Crawl Extract sched fuel (root t) = engine.Returned st
    /\ engine.dispatched st ≡ₚ urls t
    /\ engine.results st ≡ₚ flat_map (page_files Extract) (urls t)
    /\ count_occ string_dec (engine.dispatched st) u = k
    /\ count_occ MDFile_eq_dec (engine.results st) f = k.
Proof.
  intros Hu Hb Hf Hk H1 H0.
  destruct (Crawl_walks_the_tree Extract sched t fuel Hu Hb Hf)
    as (st & Hrun & _ & _ & Hdis & Hres).
  exists st. split; [exact Hrun|]. split; [exact Hdis|]. split; [exact Hres|].
  split.
  - rewrite <- Hk. apply Permutation_count_occ. exact Hdis.
  - rewrite (proj1 (Permutation_count_occ MDFile_eq_dec _ _) Hres f).
    rewrite <- Hk. apply count_occ_flat_map_single; assumption.
Qed.

(** On [site2] the directory [shared] is listed by [a] and by [b].  With
    [Extract] of package commands the site unfolds to [tree2], and the
    crawl fetches [shared] twice and returns its file twice, whatever the
    scheduler. *)
Lemma Commands_crawl_site2 (sched : nat -> nat) (fuel : nat) :
  exists st,
    Commands.Crawl site2 sched (5 + fuel) rootUrl ".go" [] = engine.Returned st
    /\ count_occ string_dec (engine.dispatched st) sharedUrl = 2%nat
    /\ count_occ MDFile_eq_dec (engine.results st) shared_x = 2%nat.
Proof.
  destruct (Crawl_fetches_every_path (fun u => Commands.Extract site2 u ".go" [])
              sched tree2 (5 + fuel) sharedUrl shared_x 2)
    as (st & Hrun & _ & _ & Hu & Hf).
  - vm_compute; reflexivity.
  - vm_compute; reflexivity.
  - change (size tree2) with 5%nat. lia.
  - vm_compute; reflexivity.
  - vm_compute; reflexivity.
  - intros v Hv. unfold page_files, Commands.Extract, site2.
    destruct (String.eqb v rootUrl); [vm_compute; tauto|].
    destruct (String.eqb v aUrl); [vm_compute; tauto|].
    destruct (String.eqb v bUrl); [vm_compute; tauto|].
    destruct (String.eqb_spec v sharedUrl) as [E|_]; [contradiction|].
    vm_compute; tauto.
  - exists st. split; [exact Hrun|]. split; [exact Hu | exact Hf].
Qed.

(** On [site], [Extract] of package main turns the row of the directory
    [a] into a directory whose href is the URL of the page the row is
    on; [Extract] of package commands gives the URL of [a]. *)
Lemma Main_Extract_root :
  Main.Extract site rootUrl ".go" [""] = Ok [EDir (mkMDDir "tree/main" rootUrl)].
Proof. vm_compute; reflexivity. Qed.

Lemma Commands_Extract_root :
  Commands.Extract site rootUrl ".go" [] = Ok [EDir (mkMDDir "main/a" aUrl)].
Proof. vm_compute; reflexivity. Qed.

Lemma Commands_Extract_a :
  Commands.Extract site aUrl ".go" [] = Ok [EFile a_x].
Proof. vm_compute; reflexivity. Qed.

(** The loop of package main on [site]: each receive takes the batch of
    the root page, which starts one more fetch of the root page. *)
Lemma Main_loop_spins (sched : nat -> nat) (fuel : nat) :
  forall (k : nat) (d : list string),
    engine.loop (fun u => Main.Extract site u ".go" [""]) sched fuel k
                (engine.mkState 1 [rootUrl] [] d)
    = engine.OutOfFuel (engine.mkState 1 [rootUrl] [] (d ++ repeat rootUrl fuel)).
Proof.
  induction fuel as [|fuel IH]; intros k d.
  - cbn [engine.loop engine.n repeat]. rewrite app_nil_r. reflexivity.
  - rewrite (loop_step _ sched fuel k 0%nat _ rootUrl [EDir (mkMDDir "tree/main" rootUrl)]).
    + cbn [engine.n engine.inflight engine.results engine.dispatched dir_hrefs files_of
           length dir_href app].
      change (delete 0%nat [rootUrl]) with (@nil string).
      change (1 + Z.of_nat 1 - 1) with 1. cbn [app].
      rewrite IH, <- app_assoc. reflexivity.
    + reflexivity.
    + cbn [engine.inflight length]. rewrite Nat.mod_1_r. reflexivity.
    + reflexivity.
    + exact Main_Extract_root.
    + reflexivity.
Qed.

(** C1.  On [site], a root directory with the one subdirectory [a],
    [Crawl] of package main does not return, whatever the scheduler and
    however long it runs: after any number of receives the counter is 1,
    one fetch of the root page is in flight, and every fetch started so
    far is a fetch of the root page; the page of [a] is never fetched.
    [Crawl] of package commands returns after two receives with the
    counter at 0, having fetched the root and [a]. *)
Theorem C1_main_crawl_never_returns (sched : nat -> nat) (fuel : nat) :
  Main.ignoreDirs_of_flag "" = [""]
  /\ Main.Extract site rootUrl ".go" [""] = Ok [EDir (mkMDDir "tree/main" rootUrl)]
  /\ Main.Crawl site sched fuel rootUrl ".go" [""]
     = engine.OutOfFuel (engine.mkState 1 [rootUrl] [] (repeat rootUrl (S fuel)))
  /\ Commands.Crawl site sched (2 + fuel) rootUrl ".go" []
     = engine.Returned (engine.mkState 0 [] [a_x] [rootUrl; aUrl]).
Proof.
  split; [reflexivity|]. split; [exact Main_Extract_root|]. split.
  - unfold Main.Crawl, engine.Crawl. rewrite Main_loop_spins. reflexivity.
  - unfold Commands.Crawl, engine.Crawl. cbn [Nat.add].
    rewrite (loop_step _ sched (S fuel) 0%nat 0%nat _ rootUrl [EDir (mkMDDir "main/a" aUrl)]);
      [| reflexivity
       | cbn [engine.inflight length]; rewrite Nat.mod_1_r; reflexivity
       | reflexivity
       | exact Commands_Extract_root
       | reflexivity].
    cbn [engine.n engine.inflight engine.results engine.dispatched dir_hrefs files_of
         length dir_href app].
    change (delete 0%nat [rootUrl]) with (@nil string).
    change (1 + Z.of_nat 1 - 1) with 1. cbn [app].
    rewrite (loop_step _ sched fuel 1%nat 0%nat _ aUrl [EFile a_x]);
      [| reflexivity
       | cbn [engine.inflight length]; rewrite Nat.mod_1_r; reflexivity
       | reflexivity
       | exact Commands_Extract_a
       | reflexivity].
    cbn [engine.n engine.inflight engine.results engine.dispatched dir_hrefs files_of
         length app].
    change (delete 0%nat [aUrl]) with (@nil string).
    change (1 + Z.of_nat 0 - 1) with 0. cbn [app].
    apply loop_done. reflexivity.
Qed.

(** * Further properties *)

(** ** Splitting and joining *)

Lemma append_cons (c : ascii) (s t : string) :
  (String c s ++ t)%string = String c (s ++ t)%string.
Proof. reflexivity. Qed.

Lemma append_assoc (s t u : string) : ((s ++ t) ++ u)%string = (s ++ t ++ u)%string.
Proof. induction s as [|c s IH]; [reflexivity|]. rewrite !append_cons, IH. reflexivity. Qed.

Lemma length_append (s t : string) :
  String.length (s ++ t)%string = (String.length s + String.length t)%nat.
Proof.
  induction s as [|c s IH]; [reflexivity|].
  rewrite append_cons. cbn [String.length]. rewrite IH. reflexivity.
Qed.

Lemma rev_app_append (s t : string) : String.rev_app s t = (String.rev s ++ t)%string.
Proof.
  unfold String.rev. revert t. induction s as [|c s IH]; intros t; [reflexivity|].
  cbn [String.rev_app]. rewrite (IH (String c EmptyString)), (IH (String c t)).
  rewrite append_assoc. reflexivity.
Qed.

Lemma rev_String (c : ascii) (s : string) :
  String.rev (String c s) = (String.rev s ++ String c EmptyString)%string.
Proof. unfold String.rev at 1. cbn [String.rev_app]. apply rev_app_append. Qed.

Lemma append_nil_r (s : string) : (s ++ "")%string = s.
Proof. induction s as [|c s IH]; [reflexivity|]. rewrite append_cons, IH. reflexivity. Qed.

Lemma HasPrefix_true (s p : string) :
  strings.HasPrefix s p = true -> exists r, s = (p ++ r)%string.
Proof.
  revert s. induction p as [|a p IH]; intros s H.
  - exists s. reflexivity.
  - destruct s as [|b s]; [discriminate|]. cbn in H.
    destruct (Ascii.eqb_spec a b) as [->|]; [|discriminate].
    destruct (IH s H) as (r & ->). exists r. reflexivity.
Qed.

Lemma split_go_skip (sep x s cur : string) :
  strings.split_go sep (x ++ s)%string cur (String.length x) = strings.split_go sep s cur 0.
Proof.
  induction x as [|c x IH]; [destruct s; reflexivity|].
  rewrite append_cons. cbn [String.length strings.split_go]. exact IH.
Qed.

Lemma Join_cons (e : string) (rest : list string) (sep : string) :
  rest <> [] -> strings.Join (e :: rest) sep = (e ++ sep ++ strings.Join rest sep)%string.
Proof. destruct rest; [congruence | reflexivity]. Qed.

Lemma Join_split_go (sep : string) (k : nat) :
  sep <> EmptyString ->
  forall s cur, (String.length s <= k)%nat ->
    strings.Join (strings.split_go sep s cur 0) sep = (String.rev cur ++ s)%string.
Proof.
  intros Hsep. induction k as [|k IH]; intros s cur Hk.
  - destruct s; [|cbn in Hk; lia]. cbn. rewrite append_nil_r. reflexivity.
  - destruct s as [|c s]; [cbn; rewrite append_nil_r; reflexivity|].
    cbn [strings.split_go]. cbn [String.length] in Hk.
    destruct (strings.HasPrefix (String c s) sep) eqn:Hp.
    + apply HasPrefix_true in Hp as (r & Hr).
      destruct sep as [|a sep']; [congruence|].
      rewrite append_cons in Hr. injection Hr as -> ->.
      cbn [String.length Nat.pred]. rewrite split_go_skip.
      rewrite Join_cons by apply split_go_nonempty.
      rewrite (IH r EmptyString).
      2:{ rewrite length_append in Hk. lia. }
      reflexivity.
    + rewrite (IH s (String c cur)) by lia.
      rewrite rev_String, append_assoc. reflexivity.
Qed.

(** Joining the pieces of a string with the separator they were cut at
    gives the string back. *)
Lemma Join_Split (s sep : string) :
  sep <> EmptyString -> strings.Join (strings.Split s sep) sep = s.
Proof.
  intros Hsep. unfold strings.Split. destruct sep as [|a sep']; [congruence|].
  rewrite (Join_split_go _ (String.length s)); [reflexivity | exact Hsep | lia].
Qed.

(** ** The gates of the classifier *)

Ltac crack H :=
  repeat match type of H with
         | bind _ _ = Ok _ =>
           let x := fresh "x" in let Hx := fresh "Hx" in
           apply bind_Ok in H as (x & Hx & H)
         | (if ?c then _ else _) = Ok _ =>
           let E := fresh "E" in destruct c eqn:E
         | Ok _ = Ok _ => injection H as <-
         end.

(** What one round of the loop of package main can set. *)
Lemma Main_attr_step_gate (n : Node) mf md (v v' : Main.vars) (a : Attribute) :
  Main.attr_step n mf md v a = Ok v' ->
  (Main.hasRightStyles v' = true ->
   Main.hasRightStyles v = true \/ (Key a = "class" /\ Val a = rowStyle))
  /\ (Main.isTrackedFile v' = true ->
      Main.isTrackedFile v = true
      \/ (Key a = "href"
          /\ regexp.Match md (origin ++ Val a)%string = false
          /\ regexp.Match mf (origin ++ Val a)%string = true))
  /\ (Main.isDir v' = true ->
      Main.isDir v = true
      \/ (Key a = "href" /\ regexp.Match md (origin ++ Val a)%string = true)).
Proof.
  unfold Main.attr_step. intros H.
  destruct (String.eqb_spec (Key a) "href") as [Hk|_].
  - apply bind_Ok in H as (label & _ & H).
    apply bind_Ok in H as (v1 & Hv1 & H).
    assert (Main.hasRightStyles v' = Main.hasRightStyles v1
            /\ Main.isTrackedFile v' = Main.isTrackedFile v1
            /\ Main.isDir v' = Main.isDir v1) as (-> & -> & ->).
    { crack H; auto. }
    destruct (regexp.Match md _) eqn:Ed.
    + crack Hv1. cbn. auto 6.
    + destruct (regexp.Match mf _) eqn:Ef; crack Hv1; cbn; auto 6.
  - destruct (String.eqb_spec (Key a) "class") as [Hk|_].
    + destruct (String.eqb_spec (Val a) rowStyle) as [Hv|_]; injection H as <-; cbn; auto.
    + injection H as <-. auto.
Qed.

Lemma Main_attr_loop_gate (n : Node) mf md (attrs : list Attribute) :
  forall v v',
    Main.attr_loop n mf md attrs v = Ok v' ->
    (Main.hasRightStyles v' = true ->
     Main.hasRightStyles v = true
     \/ exists a, In a attrs /\ Key a = "class" /\ Val a = rowStyle)
    /\ (Main.isTrackedFile v' = true ->
        Main.isTrackedFile v = true
        \/ exists a, In a attrs /\ Key a = "href"
                     /\ regexp.Match md (origin ++ Val a)%string = false
                     /\ regexp.Match mf (origin ++ Val a)%string = true)
    /\ (Main.isDir v' = true ->
        Main.isDir v = true
        \/ exists a, In a attrs /\ Key a = "href"
                     /\ regexp.Match md (origin ++ Val a)%string = true).
Proof.
  induction attrs as [|a attrs IH]; cbn [Main.attr_loop]; intros v v' H.
  - injection H as <-. auto.
  - apply bind_Ok in H as (v1 & Hv1 & H).
    destruct (IH _ _ H) as (Hs & Hf & Hd).
    destruct (Main_attr_step_gate _ _ _ _ _ _ Hv1) as (Hs1 & Hf1 & Hd1).
    split; [|split].
    + intros E. destruct (Hs E) as [E1|(b & Hb & Hk)].
      * destruct (Hs1 E1) as [|Hk]; [auto|]. right. exists a. split; [left; reflexivity | exact Hk].
      * right. exists b. split; [right; exact Hb | exact Hk].
    + intros E. destruct (Hf E) as [E1|(b & Hb & Hk)].
      * destruct (Hf1 E1) as [|Hk]; [auto|]. right. exists a. split; [left; reflexivity | exact Hk].
      * right. exists b. split; [right; exact Hb | exact Hk].
    + intros E. destruct (Hd E) as [E1|(b & Hb & Hk)].
      * destruct (Hd1 E1) as [|Hk]; [auto|]. right. exists a. split; [left; reflexivity | exact Hk].
      * right. exists b. split; [right; exact Hb | exact Hk].
Qed.

(** The same for package commands. *)
Lemma Commands_attr_step_gate (n : Node) mf md (v v' : Commands.vars) (a : Attribute) :
  Commands.attr_step n mf md v a = Ok v' ->
  (Commands.hasRightStyles v' = true ->
   Commands.hasRightStyles v = true \/ (Key a = "class" /\ Val a = rowStyle))
  /\ (Commands.isTrackedFile v' = true ->
      Commands.isTrackedFile v = true
      \/ (Key a = "href"
          /\ regexp.Match md (origin ++ Val a)%string = false
          /\ regexp.Match mf (origin ++ Val a)%string = true))
  /\ (Commands.isDir v' = true ->
      Commands.isDir v = true
      \/ (Key a = "href" /\ regexp.Match md (origin ++ Val a)%string = true)).
Proof.
  unfold Commands.attr_step. intros H.
  destruct (String.eqb_spec (Key a) "href") as [Hk|_].
  - apply bind_Ok in H as (label & _ & H).
    destruct (regexp.Match md _) eqn:Ed.
    + crack H. cbn. auto 6.
    + destruct (regexp.Match mf _) eqn:Ef; crack H; cbn; auto 6.
  - destruct (String.eqb_spec (Key a) "class") as [Hk|_].
    + destruct (String.eqb_spec (Val a) rowStyle) as [Hv|_]; injection H as <-; cbn; auto.
    + injection H as <-. auto.
Qed.

Lemma Commands_attr_loop_gate (n : Node) mf md (attrs : list Attribute) :
  forall v v',
    Commands.attr_loop n mf md attrs v = Ok v' ->
    (Commands.hasRightStyles v' = true ->
     Commands.hasRightStyles v = true
     \/ exists a, In a attrs /\ Key a = "class" /\ Val a = rowStyle)
    /\ (Commands.isTrackedFile v' = true ->
        Commands.isTrackedFile v = true
        \/ exists a, In a attrs /\ Key a = "href"
                     /\ regexp.Match md (origin ++ Val a)%string = false
                     /\ regexp.Match mf (origin ++ Val a)%string = true)
    /\ (Commands.isDir v' = true ->
        Commands.isDir v = true
        \/ exists a, In a attrs /\ Key a = "href"
                     /\ regexp.Match md (origin ++ Val a)%string = true).
Proof.
  induction attrs as [|a attrs IH]; cbn [Commands.attr_loop]; intros v v' H.
  - injection H as <-. auto.
  - apply bind_Ok in H as (v1 & Hv1 & H).
    destruct (IH _ _ H) as (Hs & Hf & Hd).
    destruct (Commands_attr_step_gate _ _ _ _ _ _ Hv1) as (Hs1 & Hf1 & Hd1).
    split; [|split].
    + intros E. destruct (Hs E) as [E1|(b & Hb & Hk)].
      * destruct (Hs1 E1) as [|Hk]; [auto|]. right. exists a. split; [left; reflexivity | exact Hk].
      * right. exists b. split; [right; exact Hb | exact Hk].
    + intros E. destruct (Hf E) as [E1|(b & Hb & Hk)].
      * destruct (Hf1 E1) as [|Hk]; [auto|]. right. exists a. split; [left; reflexivity | exact Hk].
      * right. exists b. split; [right; exact Hb | exact Hk].
    + intros E. destruct (Hd E) as [E1|(b & Hb & Hk)].
      * destruct (Hd1 E1) as [|Hk]; [auto|]. right. exists a. split; [left; reflexivity | exact Hk].
      * right. exists b. split; [right; exact Hb | exact Hk].
Qed.

Lemma MustCompile_MatchString (p : string) (r : list regexp.item) :
  regexp.MustCompile p = Ok r ->
  forall s, regexp.MatchString p s = Ok (regexp.Match r s).
Proof.
  unfold regexp.MustCompile, regexp.MatchString.
  destruct (regexp.Compile p); intros H; try discriminate.
  injection H as ->. reflexivity.
Qed.

Lemma Main_CheckLink_flags (n : Node) (extension : string) (ignoreDirs : list string)
    (e : Element) :
  Main.CheckLink n extension ignoreDirs = Ok e ->
  e <> ENil ->
  exists v, Main.scan n extension = Ok v
            /\ Main.IsContains ignoreDirs (Main.dirname v) = Ok false
            /\ Main.hasRightStyles v = true
            /\ match e with
               | EFile f => Main.isTrackedFile v = true
                            /\ str_upto (Main.fname v)
                                        (len_s (Main.fname v) - len_s extension)
                               = Ok (file_name f)
               | EDir _ => Main.isDir v = true
               | ENil => False
               end.
Proof.
  unfold Main.CheckLink. intros H Hne. apply bind_Ok in H as (v & Hv & H).
  exists v. split; [exact Hv|]. unfold Main.decide_link in H.
  apply bind_Ok in H as (ignored & Hi & H).
  destruct ignored; [injection H as <-; congruence|]. split; [exact Hi|].
  destruct (Main.hasRightStyles v); cbn [andb] in H; [|injection H as <-; congruence].
  split; [reflexivity|].
  destruct (Main.isTrackedFile v).
  - apply bind_Ok in H as (name & Hname & H). injection H as <-. cbn. auto.
  - destruct (Main.isDir v); injection H as <-; [reflexivity | congruence].
Qed.

Lemma Commands_CheckLink_flags (n : Node) (extension : string) (ignoreDirs : list string)
    (e : Element) :
  Commands.CheckLink n extension ignoreDirs = Ok e ->
  e <> ENil ->
  exists v, Commands.scan n extension = Ok v
            /\ Commands.IsContains ignoreDirs (Commands.dirname v) = Ok false
            /\ Commands.hasRightStyles v = true
            /\ match e with
               | EFile f => Commands.isTrackedFile v = true
                            /\ str_upto (Commands.fname v)
                                        (len_s (Commands.fname v) - len_s extension)
                               = Ok (file_name f)
               | EDir _ => Commands.isDir v = true
               | ENil => False
               end.
Proof.
  unfold Commands.CheckLink. intros H Hne. apply bind_Ok in H as (v & Hv & H).
  exists v. split; [exact Hv|]. unfold Commands.decide_link in H.
  destruct (Commands.hasRightStyles v); cbn [negb] in H; [|injection H as <-; congruence].
  apply bind_Ok in H as (ignored & Hi & H).
  destruct ignored; [injection H as <-; congruence|]. split; [exact Hi|].
  split; [reflexivity|].
  destruct (Commands.isTrackedFile v).
  - apply bind_Ok in H as (name & Hname & H). injection H as <-. cbn. auto.
  - destruct (Commands.isDir v); injection H as <-; [reflexivity | congruence].
Qed.

(** X1.  The style gate, in both packages: a node is classified as a file
    or as a directory only if one of its attributes is [class] with
    exactly the value of the listing rows. *)
Theorem X1_style_gate (n : Node) (extension : string) (ignoreDirs : list string)
    (e : Element) :
  Main.CheckLink n extension ignoreDirs = Ok e
  \/ Commands.CheckLink n extension ignoreDirs = Ok e ->
  e <> ENil ->
  exists a, In a (Attr n) /\ Key a = "class" /\ Val a = rowStyle.
Proof.
  intros [H|H] Hne.
  - destruct (Main_CheckLink_flags _ _ _ _ H Hne) as (v & Hv & _ & Hs & _).
    unfold Main.scan in Hv. crack Hv.
    destruct (Main_attr_loop_gate _ _ _ _ _ _ Hv) as (Hg & _).
    destruct (Hg Hs) as [|Ha]; [discriminate | exact Ha].
  - destruct (Commands_CheckLink_flags _ _ _ _ H Hne) as (v & Hv & _ & Hs & _).
    unfold Commands.scan in Hv. crack Hv.
    destruct (Commands_attr_loop_gate _ _ _ _ _ _ Hv) as (Hg & _).
    destruct (Hg Hs) as [|Ha]; [discriminate | exact Ha].
Qed.

Lemma X1_style_gate_witness :
  exists a, In a (Attr (row "/o/r/tree/main/a" "a")) /\ Key a = "class" /\ Val a = rowStyle.
Proof.
  apply (X1_style_gate (row "/o/r/tree/main/a" "a") ".go" []
           (EDir (mkMDDir "main/a" "https://github.com/o/r/tree/main/a"))).
  - right. vm_compute. reflexivity.
  - discriminate.
Defined.

(** X2.  The shape gate, in both packages: a node is classified as a
    directory only if the URL of one of its hrefs matches [.+/tree/.+],
    and as a file only if the URL of one of its hrefs matches the file
    pattern and does not match [.+/tree/.+].  So the row of a file that
    lies below a directory called [tree] is never classified as a file
    through that href. *)
Theorem X2_directory_shape_comes_first (n : Node) (extension : string)
    (ignoreDirs : list string) (e : Element) :
  Main.CheckLink n extension ignoreDirs = Ok e
  \/ Commands.CheckLink n extension ignoreDirs = Ok e ->
  match e with
  | EFile _ =>
    exists a, In a (Attr n) /\ Key a = "href"
              /\ regexp.MatchString ".+/tree/.+" (origin ++ Val a)%string = Ok false
              /\ regexp.MatchString (".+/blob/.+" ++ extension ++ "$")%string
                                    (origin ++ Val a)%string = Ok true
  | EDir _ =>
    exists a, In a (Attr n) /\ Key a = "href"
              /\ regexp.MatchString ".+/tree/.+" (origin ++ Val a)%string = Ok true
  | ENil => True
  end.
Proof.
  intros H. destruct e as [|f|d]; [exact I| |].
  - destruct H as [H|H].
    + destruct (Main_CheckLink_flags _ _ _ _ H) as (v & Hv & _ & _ & Hf & _); [discriminate|].
      unfold Main.scan in Hv. apply bind_Ok in Hv as (mf & Hmf & Hv).
      apply bind_Ok in Hv as (md & Hmd & Hv).
      destruct (Main_attr_loop_gate _ _ _ _ _ _ Hv) as (_ & Hg & _).
      destruct (Hg Hf) as [|(a & Ha & Hk & H1 & H2)]; [discriminate|].
      exists a. rewrite (MustCompile_MatchString _ _ Hmd), (MustCompile_MatchString _ _ Hmf).
      rewrite H1, H2. auto.
    + destruct (Commands_CheckLink_flags _ _ _ _ H) as (v & Hv & _ & _ & Hf & _); [discriminate|].
      unfold Commands.scan in Hv. apply bind_Ok in Hv as (mf & Hmf & Hv).
      apply bind_Ok in Hv as (md & Hmd & Hv).
      destruct (Commands_attr_loop_gate _ _ _ _ _ _ Hv) as (_ & Hg & _).
      destruct (Hg Hf) as [|(a & Ha & Hk & H1 & H2)]; [discriminate|].
      exists a. rewrite (MustCompile_MatchString _ _ Hmd), (MustCompile_MatchString _ _ Hmf).
      rewrite H1, H2. auto.
  - destruct H as [H|H].
    + destruct (Main_CheckLink_flags _ _ _ _ H) as (v & Hv & _ & _ & Hd); [discriminate|].
      unfold Main.scan in Hv. apply bind_Ok in Hv as (mf & Hmf & Hv).
      apply bind_Ok in Hv as (md & Hmd & Hv).
      destruct (Main_attr_loop_gate _ _ _ _ _ _ Hv) as (_ & _ & Hg).
      destruct (Hg Hd) as [|(a & Ha & Hk & H1)]; [discriminate|].
      exists a. rewrite (MustCompile_MatchString _ _ Hmd), H1. auto.
    + destruct (Commands_CheckLink_flags _ _ _ _ H) as (v & Hv & _ & _ & Hd); [discriminate|].
      unfold Commands.scan in Hv. apply bind_Ok in Hv as (mf & Hmf & Hv).
      apply bind_Ok in Hv as (md & Hmd & Hv).
      destruct (Commands_attr_loop_gate _ _ _ _ _ _ Hv) as (_ & _ & Hg).
      destruct (Hg Hd) as [|(a & Ha & Hk & H1)]; [discriminate|].
      exists a. rewrite (MustCompile_MatchString _ _ Hmd), H1. auto.
Qed.

Lemma X2_directory_shape_comes_first_witness :
  Commands.CheckLink row_under_tree ".go" []
    = Ok (EDir (mkMDDir "main/tree/a/x.go" "https://github.com/o/r/blob/main/tree/a/x.go"))
  /\ exists a, In a (Attr row_under_tree) /\ Key a = "href"
               /\ regexp.MatchString ".+/tree/.+" (origin ++ Val a)%string = Ok true.
Proof.
  assert (Commands.CheckLink row_under_tree ".go" []
          = Ok (EDir (mkMDDir "main/tree/a/x.go"
                              "https://github.com/o/r/blob/main/tree/a/x.go"))) as H
    by (vm_compute; reflexivity).
  split; [exact H|].
  exact (X2_directory_shape_comes_first row_under_tree ".go" [] _ (or_intror H)).
Defined.

(** ** The name of a file *)

Lemma Main_attr_step_label (n : Node) mf md (v v' : Main.vars) (a : Attribute) :
  (Main.isDir v || Main.isTrackedFile v = true ->
   exists c, FirstChild n = Some c /\ Main.fname v = Data c) ->
  Main.attr_step n mf md v a = Ok v' ->
  Main.isDir v' || Main.isTrackedFile v' = true ->
  exists c, FirstChild n = Some c /\ Main.fname v' = Data c.
Proof.
  intros Hv H. unfold Main.attr_step in H.
  destruct (String.eqb (Key a) "href").
  - destruct (FirstChild n) as [c|]; [|discriminate]. cbn [bind] in H.
    intros _. exists c. split; [reflexivity|].
    apply bind_Ok in H as (v1 & Hv1 & H).
    assert (Main.fname v1 = Data c) as Hl by (crack Hv1; reflexivity).
    crack H; [cbn|]; exact Hl.
  - crack H; exact Hv.
Qed.

Lemma Main_attr_loop_label (n : Node) mf md (attrs : list Attribute) :
  forall v v',
    (Main.isDir v || Main.isTrackedFile v = true ->
     exists c, FirstChild n = Some c /\ Main.fname v = Data c) ->
    Main.attr_loop n mf md attrs v = Ok v' ->
    Main.isDir v' || Main.isTrackedFile v' = true ->
    exists c, FirstChild n = Some c /\ Main.fname v' = Data c.
Proof.
  induction attrs as [|a attrs IH]; cbn [Main.attr_loop]; intros v v' Hv H.
  - injection H as <-. exact Hv.
  - apply bind_Ok in H as (v1 & Hv1 & H). eapply IH; [|exact H].
    eapply Main_attr_step_label; eauto.
Qed.

Lemma Commands_attr_step_label (n : Node) mf md (v v' : Commands.vars) (a : Attribute) :
  (Commands.isDir v || Commands.isTrackedFile v = true ->
   exists c, FirstChild n = Some c /\ Commands.fname v = Data c) ->
  Commands.attr_step n mf md v a = Ok v' ->
  Commands.isDir v' || Commands.isTrackedFile v' = true ->
  exists c, FirstChild n = Some c /\ Commands.fname v' = Data c.
Proof.
  intros Hv H. unfold Commands.attr_step in H.
  destruct (String.eqb (Key a) "href").
  - destruct (FirstChild n) as [c|]; [|discriminate]. cbn [bind] in H.
    intros _. exists c. split; [reflexivity|]. crack H; reflexivity.
  - crack H; exact Hv.
Qed.

Lemma Commands_attr_loop_label (n : Node) mf md (attrs : list Attribute) :
  forall v v',
    (Commands.isDir v || Commands.isTrackedFile v = true ->
     exists c, FirstChild n = Some c /\ Commands.fname v = Data c) ->
    Commands.attr_loop n mf md attrs v = Ok v' ->
    Commands.isDir v' || Commands.isTrackedFile v' = true ->
    exists c, FirstChild n = Some c /\ Commands.fname v' = Data c.
Proof.
  induction attrs as [|a attrs IH]; cbn [Commands.attr_loop]; intros v v' Hv H.
  - injection H as <-. exact Hv.
  - apply bind_Ok in H as (v1 & Hv1 & H). eapply IH; [|exact H].
    eapply Commands_attr_step_label; eauto.
Qed.

Lemma substring_prefix (s : string) :
  forall m, (m <= String.length s)%nat ->
    exists suffix, s = (String.substring 0 m s ++ suffix)%string
                   /\ String.length suffix = (String.length s - m)%nat.
Proof.
  induction s as [|c s IH]; intros [|m] Hm; cbn [String.length] in Hm.
  - exists EmptyString. split; reflexivity.
  - lia.
  - exists (String c s). split; reflexivity.
  - destruct (IH m) as (suffix & Hs & Hl); [lia|].
    exists suffix. cbn [String.substring String.length]. rewrite append_cons, <- Hs.
    split; [reflexivity | exact Hl].
Qed.

Lemma str_upto_prefix (s name : string) (k : Z) :
  str_upto s (len_s s - k) = Ok name -> 0 <= k ->
  exists suffix, s = (name ++ suffix)%string /\ Z.of_nat (String.length suffix) = k.
Proof.
  unfold str_upto, len_s. intros H Hk.
  destruct (_ && _) eqn:Hb; [|discriminate]. injection H as <-.
  apply andb_prop in Hb as [H0 H1]. apply Z.leb_le in H0, H1.
  destruct (substring_prefix s (Z.to_nat (Z.of_nat (String.length s) - k))) as (suffix & Hs & Hl);
    [lia|].
  exists suffix. split; [exact Hs | lia].
Qed.

(** X3.  The name of a file, in both packages, is the label of the node
    (the [Data] of its first child) without its last [len(extension)]
    bytes, whatever these bytes are: the label is at least as long as the
    extension, and neither the URL nor the end of the label is looked
    at. *)
Theorem X3_file_name_is_label_cut (n : Node) (extension : string)
    (ignoreDirs : list string) (f : MDFile) :
  Main.CheckLink n extension ignoreDirs = Ok (EFile f)
  \/ Commands.CheckLink n extension ignoreDirs = Ok (EFile f) ->
  exists (c : Node) (suffix : string),
    FirstChild n = Some c
    /\ Data c = (file_name f ++ suffix)%string
    /\ String.length suffix = String.length extension.
Proof.
  intros [H|H].
  - destruct (Main_CheckLink_flags _ _ _ _ H) as (v & Hv & _ & _ & Hf & Hname); [discriminate|].
    unfold Main.scan in Hv. crack Hv.
    assert (exists c, FirstChild n = Some c /\ Main.fname v = Data c) as (c & Hc & Hl).
    { eapply Main_attr_loop_label; [|exact Hv|rewrite Hf; apply orb_true_r].
      intros E. discriminate E. }
    rewrite Hl in Hname. apply str_upto_prefix in Hname as (suffix & Hs & Hlen);
      [|unfold len_s; lia].
    exists c, suffix. unfold len_s in Hlen. split; [exact Hc|]. split; [exact Hs | lia].
  - destruct (Commands_CheckLink_flags _ _ _ _ H) as (v & Hv & _ & _ & Hf & Hname); [discriminate|].
    unfold Commands.scan in Hv. crack Hv.
    assert (exists c, FirstChild n = Some c /\ Commands.fname v = Data c) as (c & Hc & Hl).
    { eapply Commands_attr_loop_label; [|exact Hv|rewrite Hf; apply orb_true_r].
      intros E. discriminate E. }
    rewrite Hl in Hname. apply str_upto_prefix in Hname as (suffix & Hs & Hlen);
      [|unfold len_s; lia].
    exists c, suffix. unfold len_s in Hlen. split; [exact Hc|]. split; [exact Hs | lia].
Qed.

Lemma X3_file_name_is_label_cut_witness :
  Commands.CheckLink row_other_label ".go" []
    = Ok (EFile (mkMDFile "https://github.com/o/r/blob/main/a/x.go" "REA" (mkMDDir "a" "")))
  /\ exists (c : Node) (suffix : string),
       FirstChild row_other_label = Some c
       /\ Data c = ("REA" ++ suffix)%string
       /\ String.length suffix = 3%nat.
Proof.
  assert (Commands.CheckLink row_other_label ".go" []
          = Ok (EFile (mkMDFile "https://github.com/o/r/blob/main/a/x.go" "REA"
                                (mkMDDir "a" "")))) as H
    by (vm_compute; reflexivity).
  split; [exact H|].
  exact (X3_file_name_is_label_cut row_other_label ".go" [] _ (or_intror H)).
Defined.

(** A label shorter than the extension makes the slice of the label
    panic. *)
Example short_label_panics :
  Main.CheckLink row_short_label ".go" [] = Panic
  /\ Commands.CheckLink row_short_label ".go" [] = Panic.
Proof. split; vm_compute; reflexivity. Qed.

(** ** The URL of a row and the href of its directory, in package main *)

Lemma has_char_append (c : ascii) (s t : string) :
  has_char c (s ++ t)%string = has_char c s || has_char c t.
Proof.
  induction s as [|d s IH]; [reflexivity|].
  rewrite append_cons. cbn [has_char]. rewrite IH, orb_assoc. reflexivity.
Qed.

Lemma has_char_rev (c : ascii) (s : string) : has_char c (String.rev s) = has_char c s.
Proof.
  induction s as [|d s IH]; [reflexivity|].
  rewrite rev_String, has_char_append, IH. cbn [has_char].
  rewrite orb_false_r. apply orb_comm.
Qed.

(** No piece of a string cut at a one-byte separator holds the separator. *)
Lemma split_go_pieces (c : ascii) (s : string) :
  forall cur,
    has_char c cur = false ->
    Forall (fun piece => has_char c piece = false)
           (strings.split_go (String c EmptyString) s cur 0).
Proof.
  induction s as [|d s IH]; intros cur Hcur; cbn [strings.split_go].
  - constructor; [|constructor]. rewrite has_char_rev. exact Hcur.
  - cbn [strings.HasPrefix]. destruct (Ascii.eqb_spec c d) as [->|Hne].
    + replace (strings.HasPrefix s "") with true by (destruct s; reflexivity).
      cbn [String.length Nat.pred]. constructor; [rewrite has_char_rev; exact Hcur|].
      apply IH. reflexivity.
    + apply IH. cbn [has_char]. rewrite Hcur.
      destruct (Ascii.eqb_spec c d); [contradiction | reflexivity].
Qed.

Lemma Split_pieces (c : ascii) (s : string) :
  Forall (fun piece => has_char c piece = false) (strings.Split s (String c EmptyString)).
Proof. apply split_go_pieces. reflexivity. Qed.

Lemma Join_snoc (seg : list string) (x sep : string) :
  seg <> [] -> strings.Join (seg ++ [x]) sep = (strings.Join seg sep ++ sep ++ x)%string.
Proof.
  induction seg as [|e seg IH]; [congruence|]. intros _.
  destruct seg as [|e' seg]; [reflexivity|].
  change ((e :: e' :: seg) ++ [x]) with (e :: ((e' :: seg) ++ [x])).
  rewrite Join_cons by discriminate. rewrite IH by discriminate.
  rewrite (Join_cons e (e' :: seg)) by discriminate.
  rewrite !append_assoc. reflexivity.
Qed.

Lemma slice_all_but_last {A : Type} (l seg : list A) :
  slice l 0 (len l - 1) = Ok seg -> exists last, l = seg ++ [last].
Proof.
  unfold slice, len. destruct (_ && _) eqn:Hb; [|discriminate]. intros H. injection H as <-.
  apply andb_prop in Hb as [Hb _]. apply andb_prop in Hb as [_ Hb]. apply Z.leb_le in Hb.
  destruct (exists_last (l := l)) as (init & last & ->).
  { intros ->. cbn in Hb. lia. }
  exists last. f_equal. change (Z.to_nat 0) with 0%nat. cbn [drop].
  rewrite length_app. cbn [length].
  replace (Z.to_nat (Z.of_nat (length init + 1) - 1 - 0)) with (length init) by lia.
  symmetry. apply take_app_length.
Qed.

Lemma Split_site_url (val : string) :
  exists x rest, strings.Split (origin ++ val)%string "/" = "https:" :: "" :: x :: rest.
Proof.
  pose proof (split_go_nonempty "/" (String.append "github.com" val) "" 0) as Hne.
  change (strings.Split (origin ++ val)%string "/")
    with ("https:" :: "" :: strings.split_go "/" (String.append "github.com" val) "" 0).
  destruct (strings.split_go _ _ _ _) as [|x rest]; [congruence|]. eauto.
Qed.

(** X4.  In package main the URL of a classified row is the href given to
    its directory, a slash, and one more segment that holds no slash.
    For a file the href is thus that of the directory the file is in;
    for a directory it is that of the parent of the directory. *)
Theorem X4_main_href_is_url_without_last_segment (n : Node) (extension : string)
    (ignoreDirs : list string) (e : Element) :
  Main.CheckLink n extension ignoreDirs = Ok e ->
  e <> ENil ->
  exists (v : Main.vars) (last : string),
    Main.scan n extension = Ok v
    /\ has_char "/" last = false
    /\ match e with
       | EFile f => file_href f = (dir_href (file_dir f) ++ "/" ++ last)%string
       | EDir d => Main.fhref v = (dir_href d ++ "/" ++ last)%string
       | ENil => False
       end.
Proof.
  intros H Hne.
  destruct (Main_href_drops_last_segment n extension ignoreDirs e H Hne)
    as (v & val & seg & Hv & Hval & Hseg & He).
  destruct (slice_all_but_last _ _ Hseg) as (last & Hl).
  assert (seg <> []) as Hseg_ne.
  { destruct (Split_site_url val) as (x & rest & Hx). rewrite Hval, Hx in Hl.
    destruct seg as [|s0 seg]; [|discriminate]. discriminate Hl. }
  assert (Main.fhref v = (strings.Join seg "/" ++ "/" ++ last)%string) as Hurl.
  { rewrite <- (Join_Split (Main.fhref v) "/") at 1 by discriminate.
    rewrite Hl. apply Join_snoc. exact Hseg_ne. }
  assert (has_char "/" last = false) as Hlast.
  { pose proof (Split_pieces "/" (Main.fhref v)) as Hp. rewrite Hl in Hp.
    apply Forall_app in Hp as [_ Hp]. inversion Hp; assumption. }
  exists v, last. split; [exact Hv|]. split; [exact Hlast|].
  destruct e as [|f|d]; [exact He| |].
  - destruct He as [-> ->]. exact Hurl.
  - rewrite He. exact Hurl.
Qed.

Lemma X4_main_href_is_url_without_last_segment_witness :
  exists (v : Main.vars) (last : string),
    Main.scan (row "/o/r/tree/main/a/b" "b") ".go" = Ok v
    /\ has_char "/" last = false
    /\ Main.fhref v = ("https://github.com/o/r/tree/main/a" ++ "/" ++ last)%string.
Proof.
  apply (X4_main_href_is_url_without_last_segment (row "/o/r/tree/main/a/b" "b") ".go" []
           (EDir (mkMDDir "tree/main/a" "https://github.com/o/r/tree/main/a"))).
  - vm_compute. reflexivity.
  - discriminate.
Defined.

(** ** The ignore list *)

Lemma ignoreDirs_of_flag_nonempty (toIgnore : string) : Main.ignoreDirs_of_flag toIgnore <> [].
Proof. apply split_go_nonempty. Qed.

(** X5.  Package main uses the directory name of a row as a regular
    expression, and its ignore list always has an entry (the flag is
    split, and a split has at least one piece); so a row whose directory
    name is not a pattern Go accepts, as [c++], ends the program through
    [log.Fatal], whatever the [--ignore] flag and whatever the style of
    the row. *)
Theorem X5_main_directory_name_must_be_a_pattern (n : Node) (extension toIgnore : string)
    (v : Main.vars) :
  Main.scan n extension = Ok v ->
  regexp.Compile (Main.dirname v) = regexp.SyntaxError ->
  Main.CheckLink n extension (Main.ignoreDirs_of_flag toIgnore) = Fatal.
Proof.
  intros Hv Hc. unfold Main.CheckLink. rewrite Hv. cbn [bind]. unfold Main.decide_link.
  pose proof (ignoreDirs_of_flag_nonempty toIgnore) as Hne.
  destruct (Main.ignoreDirs_of_flag toIgnore) as [|e rest]; [congruence|].
  cbn [Main.IsContains]. unfold regexp.MatchString. rewrite Hc. reflexivity.
Qed.

Lemma X5_main_directory_name_must_be_a_pattern_witness :
  Main.CheckLink row_cpp ".go" (Main.ignoreDirs_of_flag "vendor") = Fatal.
Proof.
  apply (X5_main_directory_name_must_be_a_pattern row_cpp ".go" "vendor"
           (Main.mkVars true true false "https://github.com/o/r/blob/main/c++/x.go" "x.go"
                        "c++" "https://github.com/o/r/blob/main/c++")).
  - vm_compute. reflexivity.
  - vm_compute. reflexivity.
Defined.

Lemma Commands_IsContains_some (elements : list string) (name : string) :
  Forall (fun q => exists b, regexp.MatchString q name = Ok b) elements ->
  (exists p, In p elements /\ regexp.MatchString p name = Ok true) ->
  Commands.IsContains elements name = Ok true.
Proof.
  intros Hall (p & Hin & Hp). unfold Commands.IsContains.
  replace (len elements =? 0) with false.
  2:{ symmetry. apply Z.eqb_neq. unfold len. destruct elements; [destruct Hin | cbn; lia]. }
  induction Hall as [|q elements (b & Hq) _ IH]; [destruct Hin|].
  cbn [Commands.IsContains_loop]. rewrite Hq. cbn [bind].
  destruct b; [reflexivity|].
  destruct Hin as [->|Hin]; [congruence | exact (IH Hin)].
Qed.

(** X6.  In package commands an empty entry in the ignore list discards
    every link: the empty pattern is found in every directory name.  (The
    entries are tried in order, so the ones before it have to be patterns
    that Go accepts.)  Two spaces in a row in the [--ignore] flag make
    such an entry. *)
Theorem X6_commands_empty_entry_discards_every_link (n : Node) (extension : string)
    (ignoreDirs : list string) (v : Commands.vars) :
  Commands.scan n extension = Ok v ->
  In "" ignoreDirs ->
  Forall (fun q => exists b, regexp.MatchString q (Commands.dirname v) = Ok b) ignoreDirs ->
  Commands.CheckLink n extension ignoreDirs = Ok ENil.
Proof.
  intros Hv Hin Hall. unfold Commands.CheckLink. rewrite Hv. cbn [bind].
  unfold Commands.decide_link. destruct (Commands.hasRightStyles v); [|reflexivity].
  cbn [negb]. rewrite (Commands_IsContains_some ignoreDirs (Commands.dirname v) Hall).
  - reflexivity.
  - exists "". split; [exact Hin | apply MatchString_empty_pattern].
Qed.

Lemma X6_commands_empty_entry_discards_every_link_witness :
  Commands.getIgnoreDirs "vendor  docs" = Ok ["vendor"; ""; "docs"]
  /\ Commands.CheckLink (row "/o/r/blob/main/a/x.go" "x.go") ".go" ["vendor"; ""; "docs"]
     = Ok ENil.
Proof.
  split; [vm_compute; reflexivity|].
  apply (X6_commands_empty_entry_discards_every_link (row "/o/r/blob/main/a/x.go" "x.go")
           ".go" ["vendor"; ""; "docs"]
           (Commands.mkVars true true false "https://github.com/o/r/blob/main/a/x.go" "x.go"
                            "a" "")).
  - vm_compute. reflexivity.
  - right. left. reflexivity.
  - repeat constructor; eexists; vm_compute; reflexivity.
Defined.

Lemma rev_nonempty (s : string) : s <> EmptyString -> String.rev s <> EmptyString.
Proof.
  destruct s as [|c s]; [congruence|]. intros _. rewrite rev_String.
  destruct (String.rev s); discriminate.
Qed.

Lemma split_go_first_nonempty (sep s : string) :
  forall cur, cur <> EmptyString ->
    exists p rest, strings.split_go sep s cur 0 = p :: rest /\ p <> EmptyString.
Proof.
  induction s as [|d s IH]; intros cur Hcur; cbn [strings.split_go].
  - eauto using rev_nonempty.
  - destruct (strings.HasPrefix _ _); [eauto using rev_nonempty|].
    apply IH. discriminate.
Qed.

(** X7.  [getIgnoreDirs] never panics.  For the empty flag and for a flag
    that begins with a space it returns the empty list, so that a leading
    space drops every pattern of the flag; for any other flag it returns
    the pieces of the flag between its spaces. *)
Theorem X7_getIgnoreDirs_leading_space (toIgnore : string) :
  Commands.getIgnoreDirs toIgnore
  = Ok (match toIgnore with
        | EmptyString => []
        | String c _ => if Ascii.eqb c " " then [] else strings.Split toIgnore " "
        end).
Proof.
  unfold Commands.getIgnoreDirs. destruct toIgnore as [|c r]; [reflexivity|].
  unfold strings.Split. cbn [strings.split_go strings.HasPrefix].
  rewrite (Ascii.eqb_sym c " ").
  destruct (Ascii.eqb " " c).
  - replace (strings.HasPrefix r "") with true by (destruct r; reflexivity). reflexivity.
  - destruct (split_go_first_nonempty " " r (String c EmptyString)) as (p & rest & -> & Hp);
      [discriminate|].
    destruct (String.eqb_spec p ""); [contradiction | reflexivity].
Qed.

(** ** Walking a page *)

Lemma foldM_app {A S : Type} (f : A -> S -> outcome S) (l1 l2 : list A) (st : S) :
  foldM f (l1 ++ l2) st = (let* st' := foldM f l1 st in foldM f l2 st').
Proof.
  revert st. induction l1 as [|a l1 IH]; intros st; [reflexivity|].
  cbn [foldM app]. destruct (f a st); cbn [bind]; try reflexivity. apply IH.
Qed.

(** X8.  [ForEachNode] calls its function once on every node of the
    tree, parents before children and children from the first to the
    last, and stops at the first call that fails. *)
Theorem X8_ForEachNode_is_preorder_fold {S : Type} (f : Node -> S -> outcome S) (n : Node) :
  forall st, ForEachNode n f st = foldM f (preorder n) st.
Proof.
  induction n as [t d a cs IH] using Node_ind. intros st.
  cbn [ForEachNode preorder foldM].
  destruct (f (mkNode t d a cs) st) as [st1| | |]; cbn [bind]; try reflexivity.
  revert st1. induction IH as [|c cs Hc _ IHcs]; intros st1; [reflexivity|].
  cbn [flat_map]. rewrite foldM_app, Hc.
  destruct (foldM f (preorder c) st1); cbn [bind]; try reflexivity.
  apply IHcs.
Qed.

Lemma mapM_Ok_all {A B : Type} (f : A -> outcome B) (l : list A) (rs : list B) :
  mapM f l = Ok rs -> forall x, In x l -> exists r, f x = Ok r.
Proof.
  revert rs. induction l as [|a l IH]; intros rs H x Hx; [destruct Hx|].
  cbn [mapM] in H. apply bind_Ok in H as (b & Hb & H).
  apply bind_Ok in H as (bs & Hbs & H).
  destruct Hx as [->|Hx]; [eauto | eapply IH; eauto].
Qed.

(** One round of the loop of [Crawl], whatever the page delivers. *)
Lemma loop_unfold (Extract : string -> outcome (list Element)) (sched : nat -> nat)
    (fuel k i : nat) (st : engine.state) (u : string) :
  0 < engine.n st ->
  i = (sched k mod length (engine.inflight st))%nat ->
  engine.inflight st !! i = Some u ->
  engine.loop Extract sched (S fuel) k st
  = match Extract u with
    | Ok batch => engine.loop Extract sched fuel (S k) (after_receive st i batch)
    | Panic => engine.Aborted Panic
    | Fatal => engine.Aborted Fatal
    | Beyond => engine.Aborted Beyond
    end.
Proof.
  intros Hn Hi Hu. cbn [engine.loop].
  replace (engine.n st >? 0) with true by (symmetry; apply Z.gtb_lt; exact Hn).
  destruct (engine.inflight st) as [|u0 rest] eqn:Hfl; [destruct i; discriminate|].
  rewrite <- Hi, Hu. unfold after_receive. rewrite Hfl. reflexivity.
Qed.

Lemma Crawl_root_fails (Extract : string -> outcome (list Element)) (sched : nat -> nat)
    (fuel : nat) (url : string) :
  (forall batch, Extract url <> Ok batch) ->
  exists why, engine.Crawl Extract sched (S fuel) url = engine.Aborted why.
Proof.
  intros H. unfold engine.Crawl.
  rewrite (loop_unfold Extract sched fuel 0%nat 0%nat _ url);
    [| reflexivity
     | cbn [engine.inflight length]; rewrite Nat.mod_1_r; reflexivity
     | reflexivity].
  destruct (Extract url) as [batch| | |];
    [destruct (H batch); reflexivity | eexists; reflexivity ..].
Qed.

(** X9.  One anchor with an href and no child, anywhere on a page, makes
    [Extract] fail on the page in both packages, whatever else the page
    holds; when the page is the one the crawl starts at, [Crawl] ends
    with the failure and returns nothing. *)
Theorem X9_one_empty_anchor_fails_the_page (web : string -> response)
    (url extension : string) (ignoreDirs : list string) (doc n : Node) :
  web url = Response StatusOK (Some doc) ->
  In n (anchors doc) ->
  FirstChild n = None ->
  (exists a, In a (Attr n) /\ Key a = "href") ->
  (forall batch, Main.Extract web url extension ignoreDirs <> Ok batch)
  /\ (forall batch, Commands.Extract web url extension ignoreDirs <> Ok batch)
  /\ (forall sched fuel, exists why,
        Main.Crawl web sched (S fuel) url extension ignoreDirs = engine.Aborted why)
  /\ (forall sched fuel, exists why,
        Commands.Crawl web sched (S fuel) url extension ignoreDirs = engine.Aborted why).
Proof.
  intros Hw Hn Hc Hh.
  assert (forall batch, Main.Extract web url extension ignoreDirs <> Ok batch) as HM.
  { intros batch H. unfold Main.Extract in H. rewrite Hw in H. cbn [negb Z.eqb StatusOK] in H.
    rewrite Main_walk in H.
    destruct (mapM_Ok_all _ _ _ H n Hn) as (e & He).
    exact (proj1 (CheckLink_no_child_never_returns n extension ignoreDirs Hc Hh e) He). }
  assert (forall batch, Commands.Extract web url extension ignoreDirs <> Ok batch) as HC.
  { intros batch H. unfold Commands.Extract in H. rewrite Hw in H.
    cbn [negb Z.eqb StatusOK] in H. rewrite Commands_walk in H.
    apply bind_Ok in H as (links & Hl & _).
    destruct (mapM_Ok_all _ _ _ Hl n Hn) as (e & He).
    exact (proj2 (CheckLink_no_child_never_returns n extension ignoreDirs Hc Hh e) He). }
  split; [exact HM|]. split; [exact HC|]. split; intros sched fuel.
  - apply Crawl_root_fails. exact HM.
  - apply Crawl_root_fails. exact HC.
Qed.

Lemma X9_one_empty_anchor_fails_the_page_witness :
  Commands.Extract broken_site "https://github.com/o/r" ".go" [] = Panic
  /\ exists why,
       Commands.Crawl broken_site (fun k => k) 1 "https://github.com/o/r" ".go" []
       = engine.Aborted why.
Proof.
  split; [vm_compute; reflexivity|].
  apply (X9_one_empty_anchor_fails_the_page broken_site "https://github.com/o/r" ".go" []
           broken_page (empty_anchor "/o/r/pulls")).
  - reflexivity.
  - vm_compute. right. left. reflexivity.
  - reflexivity.
  - exists (mkAttr "href" "/o/r/pulls"). split; [right; left; reflexivity | reflexivity].
Defined.

(** ** The loop of the crawl on any site *)

Lemma wrap64_add (a b : Z) : engine.wrap64 (engine.wrap64 a + b) = engine.wrap64 (a + b).
Proof.
  unfold engine.wrap64. f_equal.
  replace ((a + 2 ^ 63) mod 2 ^ 64 - 2 ^ 63 + b + 2 ^ 63) with ((a + 2 ^ 63) mod 2 ^ 64 + b) by lia.
  rewrite Zplus_mod_idemp_l. f_equal. lia.
Qed.

Lemma fold_visit_wrapped (batch : list Element) :
  forall st x,
    engine.n st = engine.wrap64 x ->
    fold_left engine.visit batch st
    = engine.mkState (engine.wrap64 (x + Z.of_nat (length (dir_hrefs batch))))
                     (engine.inflight st ++ dir_hrefs batch)
                     (engine.results st ++ files_of batch)
                     (engine.dispatched st ++ dir_hrefs batch).
Proof.
  induction batch as [|e batch IH]; intros [n0 fl rs ds] x Hn; cbn [engine.n] in Hn.
  - cbn. rewrite Z.add_0_r, !app_nil_r, Hn. reflexivity.
  - destruct e as [|f|d]; cbn [fold_left engine.visit dir_hrefs files_of length].
    + rewrite (IH _ x) by exact Hn. reflexivity.
    + rewrite (IH _ x) by exact Hn. cbn. rewrite <- app_assoc. reflexivity.
    + cbn [engine.n engine.inflight engine.results engine.dispatched].
      rewrite (IH _ (x + 1)) by (cbn [engine.n]; rewrite Hn; apply wrap64_add).
      cbn. rewrite <- !app_assoc. f_equal. f_equal. lia.
Qed.

Lemma after_receive_inv (Extract : string -> outcome (list Element)) (start : string)
    (st : engine.state) (received : list string) (i : nat) (u : string)
    (batch : list Element) :
  crawl_inv Extract start st received ->
  engine.inflight st !! i = Some u ->
  Extract u = Ok batch ->
  crawl_inv Extract start (after_receive st i batch) (received ++ [u]).
Proof.
  intros (Hn & Hd & Hr & Hres & Hord) Hu HE. unfold after_receive.
  rewrite (fold_visit_wrapped batch _ (Z.of_nat (length (engine.inflight st))))
    by (cbn [engine.n]; exact Hn).
  unfold crawl_inv. cbn [engine.n engine.inflight engine.results engine.dispatched].
  pose proof (length_delete (engine.inflight st) i (ex_intro _ _ Hu)) as Hlen.
  pose proof (lookup_lt_Some _ _ _ Hu) as Hlt.
  split; [|split; [|split; [|split]]].
  - replace (engine.wrap64 (Z.of_nat (length (engine.inflight st))
                            + Z.of_nat (length (dir_hrefs batch))) - 1)
      with (engine.wrap64 (Z.of_nat (length (engine.inflight st))
                           + Z.of_nat (length (dir_hrefs batch))) + -1) by lia.
    rewrite wrap64_add. f_equal. rewrite length_app. lia.
  - rewrite Hd, (delete_Permutation _ _ _ Hu) at 1.
    rewrite <- !app_assoc. apply Permutation_app_head. cbn [app]. reflexivity.
  - apply Forall_app. split; [exact Hr|]. constructor; [eauto | constructor].
  - rewrite Hres, flat_map_app. cbn [flat_map]. unfold page_files at 3. rewrite HE, app_nil_r.
    reflexivity.
  - rewrite Hord, flat_map_app. cbn [flat_map]. unfold page_dirs at 3. rewrite HE, app_nil_r.
    reflexivity.
Qed.

Lemma loop_keeps_inv (Extract : string -> outcome (list Element)) (sched : nat -> nat)
    (fuel : nat) :
  forall (k : nat) (start : string) (st : engine.state) (received : list string),
    crawl_inv Extract start st received ->
    match engine.loop Extract sched fuel k st with
    | engine.Returned st' =>
      exists received', crawl_inv Extract start st' received' /\ engine.n st' <= 0
    | engine.Deadlock _ => False
    | _ => True
    end.
Proof.
  induction fuel as [|fuel IH]; intros k start st received Hinv.
  - cbn [engine.loop]. destruct (Z.gtb_spec (engine.n st) 0); [exact I|]. eauto.
  - destruct (Z.gtb_spec (engine.n st) 0) as [Hpos|Hle].
    2:{ cbn [engine.loop]. destruct (Z.gtb_spec (engine.n st) 0); [lia|]. eauto. }
    assert (0 < length (engine.inflight st))%nat as Hlen.
    { destruct Hinv as (Hn & _). destruct (engine.inflight st); [|cbn; lia].
      rewrite Hn in Hpos. vm_compute in Hpos. discriminate. }
    set (i := (sched k mod length (engine.inflight st))%nat).
    assert (i < length (engine.inflight st))%nat as Hi
      by (apply Nat.mod_upper_bound; lia).
    destruct (lookup_lt_is_Some_2 _ _ Hi) as (u & Hu).
    rewrite (loop_unfold Extract sched fuel k i st u); [|lia|reflexivity|exact Hu].
    destruct (Extract u) as [batch| | |] eqn:HE; try exact I.
    apply (IH _ start _ (received ++ [u])). eapply after_receive_inv; eauto.
Qed.

Lemma crawl_inv_start (Extract : string -> outcome (list Element)) (url : string) :
  crawl_inv Extract url (engine.mkState 1 [url] [] [url]) [].
Proof.
  unfold crawl_inv. cbn [engine.n engine.inflight engine.results engine.dispatched].
  split; [reflexivity|]. split; [reflexivity|]. split; [constructor|].
  split; reflexivity.
Qed.

(** ** Package main on a directory reached along two paths *)

(** On [site2], [Extract] of package main turns both rows of the root
    page into directories whose href is the URL of the root page. *)
Lemma Main_Extract_root2 :
  Main.Extract site2 rootUrl ".go" [""]
  = Ok [EDir (mkMDDir "tree/main" rootUrl); EDir (mkMDDir "tree/main" rootUrl)].
Proof. vm_compute; reflexivity. Qed.

Lemma delete_repeat {A : Type} (x : A) (m i : nat) :
  (i < S m)%nat -> delete i (repeat x (S m)) = repeat x m.
Proof.
  revert i. induction m as [|m IH]; intros i Hi.
  - destruct i; [reflexivity | lia].
  - destruct i as [|i]; [reflexivity|].
    change (delete (S i) (repeat x (S (S m)))) with (x :: delete i (repeat x (S m))).
    rewrite IH by lia. reflexivity.
Qed.

Lemma lookup_repeat {A : Type} (x : A) (m i : nat) :
  (i < m)%nat -> repeat x m !! i = Some x.
Proof.
  revert i. induction m as [|m IH]; intros i Hi; [lia|].
  destruct i as [|i]; [reflexivity|]. cbn [repeat]. apply IH. lia.
Qed.

Lemma repeat_snoc2 {A : Type} (x : A) (m : nat) :
  repeat x m ++ [x; x] = repeat x (S (S m)).
Proof.
  induction m as [|m IH]; [reflexivity|].
  cbn [repeat app]. rewrite IH. reflexivity.
Qed.

(** The loop of package main on [site2], while the counter does not
    overflow: each receive takes the batch of the root page, which starts
    two more fetches of the root page. *)
Lemma Main_loop_site2 (sched : nat -> nat) (fuel : nat) :
  forall (k m : nat) (d : list string),
    Z.of_nat (m + fuel) + 2 < 2 ^ 63 ->
    engine.loop (fun u => Main.Extract site2 u ".go" [""]) sched fuel k
                (engine.mkState (Z.of_nat (S m)) (repeat rootUrl (S m)) [] d)
    = engine.OutOfFuel
        (engine.mkState (Z.of_nat (S (m + fuel))) (repeat rootUrl (S (m + fuel))) []
                        (d ++ repeat rootUrl (2 * fuel))).
Proof.
  induction fuel as [|fuel IH]; intros k m d Hb.
  - rewrite Nat.add_0_r. cbn [engine.loop engine.n repeat Nat.mul].
    rewrite app_nil_r. reflexivity.
  - set (i := (sched k mod S m)%nat).
    assert (i < S m)%nat as Hi by (apply Nat.mod_upper_bound; lia).
    rewrite (loop_step _ sched fuel k i _ rootUrl
               [EDir (mkMDDir "tree/main" rootUrl); EDir (mkMDDir "tree/main" rootUrl)]).
    + cbn [engine.n engine.inflight engine.results engine.dispatched dir_hrefs files_of
           length dir_href].
      rewrite delete_repeat by exact Hi.
      change ([rootUrl] ++ [rootUrl] ++ []) with [rootUrl; rootUrl].
      rewrite repeat_snoc2. cbn [app].
      replace (Z.of_nat (S m) + Z.of_nat 2 - 1) with (Z.of_nat (S (S m))) by lia.
      rewrite (IH (S k) (S m)) by lia.
      replace (S m + fuel)%nat with (m + S fuel)%nat by lia.
      rewrite <- app_assoc.
      replace (2 * S fuel)%nat with (2 + 2 * fuel)%nat by lia.
      reflexivity.
    + cbn [engine.n]. lia.
    + cbn [engine.inflight]. rewrite repeat_length. reflexivity.
    + cbn [engine.inflight]. apply lookup_repeat. exact Hi.
    + exact Main_Extract_root2.
    + cbn [engine.n dir_hrefs length]. lia.
Qed.

(** The loop of package main on [site2], however long it runs: every
    fetch it starts is a fetch of the root page, and it receives no
    file. *)
Lemma Main_loop_stays_at_root (sched : nat -> nat) (fuel : nat) :
  forall (k : nat) (st : engine.state),
    Forall (eq rootUrl) (engine.inflight st) ->
    Forall (eq rootUrl) (engine.dispatched st) ->
    engine.results st = [] ->
    exists st',
      (engine.loop (fun u => Main.Extract site2 u ".go" [""]) sched fuel k st
         = engine.OutOfFuel st'
       \/ engine.loop (fun u => Main.Extract site2 u ".go" [""]) sched fuel k st
         = engine.Returned st'
       \/ engine.loop (fun u => Main.Extract site2 u ".go" [""]) sched fuel k st
         = engine.Deadlock st')
      /\ Forall (eq rootUrl) (engine.dispatched st')
      /\ engine.results st' = [].
Proof.
  induction fuel as [|fuel IH]; intros k st Hfl Hds Hrs.
  - exists st. split; [|auto]. cbn [engine.loop].
    destruct (engine.n st >? 0); auto.
  - destruct (Z.gtb_spec (engine.n st) 0) as [Hpos|Hle].
    2:{ exists st. split; [|auto]. right. left. cbn [engine.loop].
        destruct (Z.gtb_spec (engine.n st) 0); [lia | reflexivity]. }
    destruct (engine.inflight st) as [|u0 rest] eqn:Efl.
    { exists st. split; [|auto]. right. right. cbn [engine.loop].
      destruct (Z.gtb_spec (engine.n st) 0); [|lia]. rewrite Efl. reflexivity. }
    set (i := (sched k mod length (engine.inflight st))%nat).
    assert (i < length (engine.inflight st))%nat as Hi
      by (apply Nat.mod_upper_bound; rewrite Efl; cbn [length]; lia).
    destruct (lookup_lt_is_Some_2 _ _ Hi) as (u & Hu).
    assert (u = rootUrl) as ->.
    { rewrite <- Efl in Hfl. rewrite List.Forall_forall in Hfl. symmetry. apply Hfl.
      apply list_elem_of_In. eapply list_elem_of_lookup_2. exact Hu. }
    rewrite (loop_unfold _ sched fuel k i st rootUrl); [|lia|reflexivity|exact Hu].
    rewrite Main_Extract_root2.
    apply IH; unfold after_receive;
      cbn [fold_left engine.visit engine.n engine.inflight engine.results
           engine.dispatched dir_href].
    + rewrite <- app_assoc. apply Forall_app. split.
      * rewrite <- Efl in Hfl. apply Forall_delete. exact Hfl.
      * repeat constructor.
    + rewrite <- app_assoc. apply Forall_app. split; [exact Hds | repeat constructor].
    + exact Hrs.
Qed.

(** C8.  On [site2] the directory [shared] is reached along two paths,
    through [a] and through [b], and its page lists one file.  [Crawl] of
    package main never fetches it: both rows of the root page come back
    as directories at the URL of the root page, so every fetch started is
    a fetch of the root page and no file is received, in whatever state
    the run is left; and the run does not return, the counter growing by
    one with each receive (until a 64-bit counter would overflow).
    [Crawl] of package commands fetches [shared] twice and returns its
    file twice. *)
Theorem C8_main_never_fetches_the_shared_directory (sched : nat -> nat) (fuel : nat) :
  count_occ string_dec (urls tree2) sharedUrl = 2%nat
  /\ Main.Extract site2 rootUrl ".go" [""]
     = Ok [EDir (mkMDDir "tree/main" rootUrl); EDir (mkMDDir "tree/main" rootUrl)]
  /\ (exists st,
        (Main.Crawl site2 sched fuel rootUrl ".go" [""] = engine.OutOfFuel st
         \/ Main.Crawl site2 sched fuel rootUrl ".go" [""] = engine.Returned st)
        /\ count_occ string_dec (engine.dispatched st) sharedUrl = 0%nat
        /\ engine.results st = [])
  /\ (Z.of_nat fuel + 2 < 2 ^ 63 ->
      Main.Crawl site2 sched fuel rootUrl ".go" [""]
      = engine.OutOfFuel
          (engine.mkState (1 + Z.of_nat fuel) (repeat rootUrl (S fuel)) []
                          (repeat rootUrl (1 + 2 * fuel))))
  /\ (exists st,
        Commands.Crawl site2 sched (5 + fuel) rootUrl ".go" [] = engine.Returned st
        /\ count_occ string_dec (engine.dispatched st) sharedUrl = 2%nat
        /\ count_occ MDFile_eq_dec (engine.results st) shared_x = 2%nat).
Proof.
  split; [vm_compute; reflexivity|]. split; [exact Main_Extract_root2|].
  split; [|split; [|apply Commands_crawl_site2]].
  - destruct (Main_loop_stays_at_root sched fuel 0%nat (engine.mkState 1 [rootUrl] [] [rootUrl]))
      as (st & Hrun & Hds & Hrs); [repeat constructor | repeat constructor | reflexivity |].
    exists st. split; [|split; [|exact Hrs]].
    + unfold Main.Crawl, engine.Crawl.
      destruct Hrun as [H|[H|H]]; [left; exact H | right; exact H |].
      pose proof (loop_keeps_inv (fun u => Main.Extract site2 u ".go" [""]) sched fuel
                    0%nat rootUrl _ [] (crawl_inv_start _ rootUrl)) as Hl.
      rewrite H in Hl. destruct Hl.
    + apply count_occ_not_In. intros Hin. rewrite List.Forall_forall in Hds.
      specialize (Hds _ Hin). discriminate Hds.
  - intros Hb. unfold Main.Crawl, engine.Crawl.
    change (engine.mkState 1 [rootUrl] [] [rootUrl])
      with (engine.mkState (Z.of_nat 1) (repeat rootUrl 1) [] [rootUrl]).
    rewrite (Main_loop_site2 sched fuel 0%nat 0%nat [rootUrl]) by (cbn [Nat.add]; lia).
    cbn [Nat.add app repeat]. f_equal. f_equal. lia.
Qed.

Lemma C8_main_never_fetches_the_shared_directory_witness :
  Main.Crawl site2 (fun k => k) 3 rootUrl ".go" [""]
  = engine.OutOfFuel
      (engine.mkState 4 (repeat rootUrl 4) [] (repeat rootUrl 7)).
Proof.
  apply (C8_main_never_fetches_the_shared_directory (fun k => k) 3). vm_compute. reflexivity.
Defined.

(** X10.  Whatever the site and the order of the deliveries, the loop of
    [Crawl] never waits for a delivery when no goroutine is left to make
    one: as long as the counter is positive, a fetch is in flight. *)
Theorem X10_Crawl_never_deadlocks (Extract : string -> outcome (list Element))
    (sched : nat -> nat) (fuel : nat) (url : string) (st : engine.state) :
  engine.Crawl Extract sched fuel url <> engine.Deadlock st.
Proof.
  intros H.
  pose proof (loop_keeps_inv Extract sched fuel 0%nat url _ [] (crawl_inv_start Extract url))
    as Hl.
  unfold engine.Crawl in H. rewrite H in Hl. exact Hl.
Qed.

(** X11.  Whatever the site (a tree or not), when [Crawl] returns, no
    fetch is in flight and the counter is 0; every fetch it started has
    delivered a page that was extracted without failure; the result is
    the files of these pages, page after page in the order of the
    deliveries, the files of one page in the order of the page; and the
    fetches started are the first one and one for each directory row of
    the pages delivered, however often a URL occurs among them. *)
Theorem X11_Crawl_returns_the_files_of_all_fetched_pages
    (Extract : string -> outcome (list Element)) (sched : nat -> nat) (fuel : nat)
    (url : string) (st : engine.state) :
  engine.Crawl Extract sched fuel url = engine.Returned st ->
  Z.of_nat (length (engine.dispatched st)) < 2 ^ 63 ->
  exists received,
    received ≡ₚ engine.dispatched st
    /\ Forall (fun u => exists batch, Extract u = Ok batch) received
    /\ engine.results st = flat_map (page_files Extract) received
    /\ engine.dispatched st = url :: flat_map (page_dirs Extract) received
    /\ engine.inflight st = []
    /\ engine.n st = 0.
Proof.
  intros H Hb.
  pose proof (loop_keeps_inv Extract sched fuel 0%nat url _ [] (crawl_inv_start Extract url))
    as Hl.
  unfold engine.Crawl in H. rewrite H in Hl.
  destruct Hl as (received & (Hn & Hd & Hr & Hres & Hord) & Hle).
  assert (engine.inflight st = []) as Hfl.
  { pose proof (Permutation_length Hd) as Hlen. rewrite length_app in Hlen.
    rewrite Hn, wrap64_small in Hle by lia.
    destruct (engine.inflight st); [reflexivity | cbn in Hle; lia]. }
  exists received. rewrite Hfl, app_nil_r in Hd.
  split; [symmetry; exact Hd|]. split; [exact Hr|]. split; [exact Hres|].
  split; [exact Hord|]. split; [exact Hfl|]. rewrite Hn, Hfl. reflexivity.
Qed.

Lemma X11_Crawl_returns_the_files_of_all_fetched_pages_witness :
  exists received,
    received ≡ₚ [rootUrl; aUrl]
    /\ Forall (fun u => exists batch, Commands.Extract site u ".go" [] = Ok batch) received
    /\ [a_x] = flat_map (page_files (fun u => Commands.Extract site u ".go" [])) received.
Proof.
  destruct (X11_Crawl_returns_the_files_of_all_fetched_pages
              (fun u => Commands.Extract site u ".go" []) (fun k => k) 2 rootUrl
              (engine.mkState 0 [] [a_x] [rootUrl; aUrl]))
    as (received & Hp & Hr & Hres & _).
  - vm_compute. reflexivity.
  - vm_compute. reflexivity.
  - exists received. split; [exact Hp|]. split; [exact Hr | exact Hres].
Defined.

Lemma loop_on_a_chain (Extract : string -> outcome (list Element)) (P : string -> Prop)
    (sched : nat -> nat) (fuel : nat) :
  (forall u, P u -> exists batch d, Extract u = Ok batch /\ dir_hrefs batch = [d] /\ P d) ->
  forall (k : nat) (u : string) (rs : list MDFile) (ds : list string),
    P u ->
    exists st,
      engine.loop Extract sched fuel k (engine.mkState 1 [u] rs ds) = engine.OutOfFuel st
      /\ engine.n st = 1
      /\ length (engine.dispatched st) = (length ds + fuel)%nat.
Proof.
  intros HP. induction fuel as [|fuel IH]; intros k u rs ds Hu.
  - eexists. cbn [engine.loop engine.n]. split; [reflexivity|].
    cbn [engine.n engine.dispatched]. split; [reflexivity | lia].
  - destruct (HP u Hu) as (batch & d & HE & Hd & HPd).
    rewrite (loop_step Extract sched fuel k 0%nat _ u batch);
      [| reflexivity
       | cbn [engine.inflight length]; rewrite Nat.mod_1_r; reflexivity
       | reflexivity
       | exact HE
       | cbn [engine.n]; rewrite Hd; reflexivity].
    cbn [engine.n engine.inflight engine.results engine.dispatched]. rewrite Hd.
    change (delete 0%nat [u] ++ [d]) with [d].
    change (1 + Z.of_nat (length [d]) - 1) with 1.
    destruct (IH (S k) d (rs ++ files_of batch) (ds ++ [d]) HPd) as (st & Hrun & Hn & Hl).
    exists st. split; [exact Hrun|]. split; [exact Hn|].
    rewrite Hl, length_app. cbn [length]. lia.
Qed.

(** X12.  No cycle is detected: from a page that lists one directory,
    whose page again lists one directory, and so on for ever (as on two
    pages that list each other), [Crawl] does not return; after any
    number of deliveries the counter is 1 and one more fetch has been
    started for each delivery. *)
Theorem X12_Crawl_follows_a_cycle_for_ever (Extract : string -> outcome (list Element))
    (P : string -> Prop) (sched : nat -> nat) (fuel : nat) (url : string) :
  P url ->
  (forall u, P u -> exists batch d, Extract u = Ok batch /\ dir_hrefs batch = [d] /\ P d) ->
  exists st,
    engine.Crawl Extract sched fuel url = engine.OutOfFuel st
    /\ engine.n st = 1
    /\ length (engine.dispatched st) = S fuel.
Proof.
  intros Hu HP. unfold engine.Crawl.
  destruct (loop_on_a_chain Extract P sched fuel HP 0%nat url [] [url] Hu) as (st & H & Hn & Hl).
  exists st. split; [exact H|]. split; [exact Hn | exact Hl].
Qed.

Lemma X12_Crawl_follows_a_cycle_for_ever_witness :
  exists st,
    Commands.Crawl cyclic_site (fun k => k) 7 pingUrl ".go" [] = engine.OutOfFuel st
    /\ engine.n st = 1
    /\ length (engine.dispatched st) = 8%nat.
Proof.
  apply (X12_Crawl_follows_a_cycle_for_ever
           (fun u => Commands.Extract cyclic_site u ".go" [])
           (fun u => u = pingUrl \/ u = pongUrl) (fun k => k) 7 pingUrl).
  - left. reflexivity.
  - intros u [->| ->].
    + exists [EDir (mkMDDir "main/pong" pongUrl)], pongUrl.
      split; [vm_compute; reflexivity|]. split; [reflexivity | right; reflexivity].
    + exists [EDir (mkMDDir "main/ping" pingUrl)], pingUrl.
      split; [vm_compute; reflexivity|]. split; [reflexivity | left; reflexivity].
Defined.

(** ** The groups *)

Lemma filter_nonempty_In {A : Type} (p : A -> bool) (l : list A) :
  List.filter p l <> [] -> exists x, In x l /\ p x = true.
Proof.
  intros H. destruct (List.filter p l) as [|x r] eqn:E; [congruence|].
  exists x. apply filter_In. rewrite E. left. reflexivity.
Qed.

Lemma GroupByDir_lookup_Some (files : list MDFile) (d : MDDir) (l : list MDFile) :
  Main.GroupByDir files !! d = Some l
  <-> l = List.filter (fun f => bool_decide (file_dir f = d)) files /\ l <> [].
Proof.
  rewrite GroupByDir_lookup. destruct (List.filter _ files) as [|x r].
  - split; [discriminate | intros [-> Hne]; congruence].
  - split; [intros E; injection E as <-; split; [reflexivity | discriminate]
           | intros [-> _]; reflexivity].
Qed.

(** X13.  The group [GroupByDir] holds for a directory is the files of
    the input that have this very directory, in the order of the input,
    and no group is empty; in both packages. *)
Theorem X13_group_is_the_files_of_the_directory_in_order (files : list MDFile)
    (d : MDDir) (l : list MDFile) :
  (Main.GroupByDir files !! d = Some l
   <-> l = List.filter (fun f => bool_decide (file_dir f = d)) files /\ l <> [])
  /\ (Commands.GroupByDir files !! d = Some l
      <-> l = List.filter (fun f => bool_decide (file_dir f = d)) files /\ l <> []).
Proof.
  change (Commands.GroupByDir files) with (Main.GroupByDir files).
  split; apply GroupByDir_lookup_Some.
Qed.

Lemma filter_Permutation_List {A : Type} (p : A -> bool) (l l' : list A) :
  l ≡ₚ l' -> List.filter p l ≡ₚ List.filter p l'.
Proof.
  induction 1 as [|x l l' _ IH|x y l|l l' l'' _ IH1 _ IH2]; cbn [List.filter].
  - reflexivity.
  - destruct (p x); [constructor|]; exact IH.
  - destruct (p x), (p y); try reflexivity. constructor.
  - etransitivity; eassumption.
Qed.

(** X14.  Grouping does not depend on the order of its input beyond the
    order inside a group: two inputs with the same files, in any order,
    give the same directories, and for each directory groups with the
    same files. *)
Theorem X14_grouping_is_stable_under_reordering (files files' : list MDFile)
    (d : MDDir) (l : list MDFile) :
  files ≡ₚ files' ->
  Main.GroupByDir files !! d = Some l ->
  exists l', Main.GroupByDir files' !! d = Some l' /\ l ≡ₚ l'.
Proof.
  intros HP H. rewrite GroupByDir_lookup in H.
  pose proof (filter_Permutation_List (fun f => bool_decide (file_dir f = d)) _ _ HP) as Hf.
  exists (List.filter (fun f => bool_decide (file_dir f = d)) files').
  rewrite GroupByDir_lookup.
  destruct (List.filter _ files) as [|x r]; [discriminate|]. injection H as <-.
  destruct (List.filter _ files') as [|x' r'].
  - apply Permutation_nil_r in Hf. discriminate.
  - split; [reflexivity | exact Hf].
Qed.

Lemma X14_grouping_is_stable_under_reordering_witness :
  exists l',
    Main.GroupByDir [file_on_dev; file_on_main; file_on_main] !! file_dir file_on_main
    = Some l'
    /\ [file_on_main; file_on_main] ≡ₚ l'.
Proof.
  apply (X14_grouping_is_stable_under_reordering
           [file_on_main; file_on_dev; file_on_main]
           [file_on_dev; file_on_main; file_on_main]).
  - apply perm_swap.
  - vm_compute. reflexivity.
Defined.

Lemma GroupByDir_snoc (files : list MDFile) (f : MDFile) :
  Main.GroupByDir (files ++ [f])
  = <[file_dir f := default [] (Main.GroupByDir files !! file_dir f) ++ [f]]>
      (Main.GroupByDir files).
Proof. unfold Main.GroupByDir. rewrite fold_left_app. reflexivity. Qed.

Lemma groups_cover_input (files : list MDFile) :
  flat_map snd (map_to_list (Main.GroupByDir files)) ≡ₚ files.
Proof.
  induction files as [|f files IH] using rev_ind.
  - unfold Main.GroupByDir. cbn [fold_left]. rewrite map_to_list_empty. reflexivity.
  - rewrite GroupByDir_snoc.
    destruct (Main.GroupByDir files !! file_dir f) as [l|] eqn:E; cbn [default].
    + rewrite <- insert_delete_eq.
      rewrite (Permutation_flat_map snd
                 (map_to_list_insert (delete (file_dir f) (Main.GroupByDir files))
                    (file_dir f) (l ++ [f]) (lookup_delete_eq _ _))).
      rewrite <- IH at 2.
      rewrite <- (Permutation_flat_map snd (map_to_list_delete _ _ _ E)).
      cbn [flat_map snd]. rewrite <- !app_assoc. apply Permutation_app_head.
      apply Permutation_app_comm.
    + rewrite (Permutation_flat_map snd
                 (map_to_list_insert (Main.GroupByDir files) (file_dir f) ([] ++ [f]) E)).
      cbn [flat_map snd app]. rewrite IH. apply Permutation_cons_append.
Qed.

(** X15.  Grouping loses no file and adds none: the groups of
    [GroupByDir], taken together, hold the files of the input, each as
    often as the input holds it; in both packages. *)
Theorem X15_groups_hold_the_input (files : list MDFile) :
  flat_map snd (map_to_list (Main.GroupByDir files)) ≡ₚ files
  /\ flat_map snd (map_to_list (Commands.GroupByDir files)) ≡ₚ files.
Proof. split; apply groups_cover_input. Qed.

(** ** Printing the groups *)

Lemma print_groups_writes (groups : list (MDDir * list MDFile)) :
  forall out,
    Forall (fun g => markdown.has_percent (markdown.Dir_GetMarkDown (fst g)) = false) groups ->
    foldM markdown.print_group groups out = Ok (out ++ flat_map group_writes groups).
Proof.
  induction groups as [|g groups IH]; intros out Hall.
  - cbn. rewrite app_nil_r. reflexivity.
  - inversion Hall as [|g' groups' Hg Hrest]; subst.
    cbn [foldM flat_map]. unfold markdown.print_group at 1, markdown.Fprintf.
    rewrite Hg. cbn [bind].
    change (markdown.has_percent markdown.newline) with false. cbn [bind].
    rewrite IH by exact Hrest. unfold group_writes at 2.
    rewrite <- app_assoc. reflexivity.
Qed.

Lemma map_fst_fmap {A B : Type} (l : list (A * B)) : map fst l = l.*1.
Proof. induction l as [|x l IH]; [reflexivity|]. cbn. rewrite IH. reflexivity. Qed.

(** X16.  Whatever the order in which the runtime yields the entries of
    the map, and when no directory has a [%] in its name or href,
    [PrintResults] writes, for each directory of the result once, the
    heading of the directory, then one line for each file of that
    directory in the order of the crawl result, then a line feed; taken
    together the lines are those of the files of the result, each file
    once for each time the result holds it. *)
Theorem X16_PrintResults_writes_every_file_under_its_directory
    (range_of : gmap MDDir (list MDFile) -> list (MDDir * list MDFile))
    (out : list string) (results : list MDFile) :
  range_of (Main.GroupByDir results) ≡ₚ map_to_list (Main.GroupByDir results) ->
  Forall (fun f => markdown.has_percent (markdown.Dir_GetMarkDown (file_dir f)) = false)
         results ->
  markdown.PrintResults range_of out results
    = Ok (out ++ flat_map group_writes (range_of (Main.GroupByDir results)))
  /\ NoDup (map fst (range_of (Main.GroupByDir results)))
  /\ Forall (fun g => snd g = List.filter (fun f => bool_decide (file_dir f = fst g)) results
                      /\ snd g <> [])
            (range_of (Main.GroupByDir results))
  /\ flat_map snd (range_of (Main.GroupByDir results)) ≡ₚ results.
Proof.
  intros Hrange Hpct.
  assert (Forall (fun g => snd g = List.filter (fun f => bool_decide (file_dir f = fst g)) results
                           /\ snd g <> [])
                 (range_of (Main.GroupByDir results))) as Hgroups.
  { apply List.Forall_forall. intros [d l] Hin. cbn [fst snd].
    apply list_elem_of_In in Hin. rewrite Hrange in Hin.
    apply elem_of_map_to_list in Hin.
    exact (proj1 (GroupByDir_lookup_Some results d l) Hin). }
  split; [|split; [|split]].
  - unfold markdown.PrintResults. apply print_groups_writes.
    apply List.Forall_forall. intros g Hg.
    rewrite List.Forall_forall in Hgroups. destruct (Hgroups g Hg) as [Hl Hne].
    rewrite Hl in Hne. apply filter_nonempty_In in Hne as (f & Hf & Hd).
    apply bool_decide_eq_true in Hd. rewrite <- Hd.
    rewrite List.Forall_forall in Hpct. exact (Hpct f Hf).
  - rewrite map_fst_fmap, Hrange. apply NoDup_fst_map_to_list.
  - exact Hgroups.
  - rewrite (Permutation_flat_map snd Hrange). apply groups_cover_input.
Qed.

Lemma X16_PrintResults_writes_every_file_under_its_directory_witness :
  markdown.PrintResults map_to_list [] [file_on_main; file_on_dev; file_on_main]
  = Ok ([] ++ flat_map group_writes
                (map_to_list (Main.GroupByDir [file_on_main; file_on_dev; file_on_main]))).
Proof.
  apply (X16_PrintResults_writes_every_file_under_its_directory map_to_list []
           [file_on_main; file_on_dev; file_on_main]).
  - reflexivity.
  - repeat constructor.
Defined.

(** ** The checks and names of the entry points *)

Lemma search_Bol_false (r : list regexp.item) (s : list Z) :
  regexp.search (regexp.Bol :: r) false s = false.
Proof. induction s as [|c s IH]; [reflexivity|]. cbn. exact IH. Qed.

Lemma search_Bol_true (r : list regexp.item) (s : list Z) :
  regexp.search (regexp.Bol :: r) true s = regexp.match_here r true s.
Proof.
  destruct s as [|c s]; cbn [regexp.search regexp.match_here andb].
  - apply orb_false_r.
  - rewrite search_Bol_false. apply orb_false_r.
Qed.

Lemma match_lits (p : string) (r : list regexp.item) :
  forall bol s,
    regexp.match_here (lits p ++ r) bol s = true
    <-> exists s', s = codes p ++ s'
                   /\ regexp.match_here r (bol && bool_decide (p = EmptyString)) s' = true.
Proof.
  induction p as [|c p IH]; intros bol s.
  - cbn [lits codes list_ascii_of_string map app]. rewrite andb_true_r. split.
    + intros H. exists s. auto.
    + intros (s' & -> & H). exact H.
  - change (lits (String c p) ++ r)
      with (regexp.Atom (regexp.Lit c) regexp.One :: (lits p ++ r)).
    change (codes (String c p)) with (utf8.byte c :: codes p).
    cbn [regexp.match_here]. rewrite andb_false_r. destruct s as [|d s].
    + split; [discriminate | intros (s' & Hs & _); discriminate Hs].
    + cbn [regexp.atom_ok]. split.
      * intros H. apply andb_prop in H as [Hc H]. apply Z.eqb_eq in Hc as <-.
        apply IH in H as (s' & -> & H). exists s'. split; [reflexivity | exact H].
      * intros (s' & Hs & H). cbn [app] in Hs. injection Hs as <- ->.
        rewrite Z.eqb_refl. cbn [andb]. apply IH. exists s'. split; [reflexivity | exact H].
Qed.

Lemma match_any_then_end (s : list Z) :
  forall bol,
    regexp.match_here [regexp.Atom regexp.AnyNotNL regexp.Star; regexp.Eol] bol s
    = forallb (fun c => negb (c =? 10)) s.
Proof.
  induction s as [|c s IH]; intros bol; [reflexivity|].
  specialize (IH false).
  cbn [regexp.match_here regexp.atom_ok forallb orb] in IH |- *. rewrite IH.
  reflexivity.
Qed.

Lemma no_line_feed (s : list Z) :
  forallb (fun c => negb (c =? 10)) s = true <-> ~ In 10 s.
Proof.
  rewrite forallb_forall. split.
  - intros H Hin. specialize (H 10 Hin). discriminate H.
  - intros H c Hin. destruct (Z.eqb_spec c 10) as [->|_]; [contradiction | reflexivity].
Qed.

Lemma Ok_inj {A : Type} (a b : A) : Ok a = Ok b -> a = b.
Proof. intros H. injection H as ->. reflexivity. Qed.

(** A text of ASCII bytes has its bytes as code points. *)
Lemma runes_ascii (s : string) :
  Forall (fun c => utf8.byte c < 128) (list_ascii_of_string s) ->
  utf8.runes s = codes s.
Proof.
  unfold utf8.runes. induction s as [|c s IH]; intros H; [reflexivity|].
  cbn [list_ascii_of_string] in H. apply Forall_cons in H as [Hc H].
  cbn [String.length utf8.runes_within utf8.DecodeRuneInString].
  unfold utf8.first. apply Z.ltb_lt in Hc. rewrite Hc.
  cbn [utf8.skip]. rewrite (IH H). reflexivity.
Qed.

(** X17.  [CheckRepositoryURL] never reports an error, and it accepts
    exactly the texts whose code points are those of [https://github],
    any one code point but a line feed, those of [com/], and any code
    points but line feeds: the dot of the host is not escaped, so
    [https://githubXcom/] passes, and nothing is asked of what follows the
    slash. *)
Theorem X17_CheckRepositoryURL_accepts (url : string) :
  (exists b, cli.CheckRepositoryURL url = Ok b)
  /\ (cli.CheckRepositoryURL url = Ok true
      <-> exists (c : Z) (rest : list Z),
            utf8.runes url = codes "https://github" ++ c :: codes "com/" ++ rest
            /\ c <> 10
            /\ ~ In 10 rest).
Proof.
  assert (cli.CheckRepositoryURL url
          = Ok (regexp.match_here
                  (lits "https://github"
                   ++ regexp.Atom regexp.AnyNotNL regexp.One
                      :: (lits "com/"
                          ++ [regexp.Atom regexp.AnyNotNL regexp.Star; regexp.Eol]))
                  true (utf8.runes url))) as ->.
  { unfold cli.CheckRepositoryURL, regexp.MatchString, regexp.Match.
    change (regexp.Compile "^https:\/\/github.com/.*$")
      with (regexp.Compiled
              (regexp.Bol
               :: lits "https://github"
                  ++ regexp.Atom regexp.AnyNotNL regexp.One
                     :: (lits "com/"
                         ++ [regexp.Atom regexp.AnyNotNL regexp.Star; regexp.Eol]))).
    cbv beta iota. rewrite search_Bol_true. reflexivity. }
  split; [eauto|]. generalize (utf8.runes url) as text. intros text. split.
  - intros H. apply Ok_inj in H. apply match_lits in H as (s1 & -> & H).
    cbn [regexp.match_here andb] in H. destruct s1 as [|c s1]; [discriminate|].
    apply andb_prop in H as [Hc H]. apply match_lits in H as (rest & -> & H).
    cbn [andb] in H. rewrite match_any_then_end in H. apply no_line_feed in H.
    exists c, rest. split; [reflexivity|]. split; [|exact H].
    intros ->. discriminate Hc.
  - intros (c & rest & -> & Hc & Hrest). f_equal.
    apply match_lits. eexists. split; [reflexivity|].
    cbn [regexp.match_here regexp.atom_ok andb].
    destruct (Z.eqb_spec c 10) as [->|_]; [congruence|]. cbn [negb andb].
    apply match_lits. exists rest. split; [reflexivity|].
    cbn [andb]. rewrite match_any_then_end. apply no_line_feed. exact Hrest.
Qed.

Example CheckRepositoryURL_examples :
  cli.CheckRepositoryURL "https://github.com/linksplatform/Setters/" = Ok true
  /\ cli.CheckRepositoryURL "https://githubXcom/" = Ok true
  /\ cli.CheckRepositoryURL ("https://github" ++ e_acute ++ "com/x") = Ok true
  /\ cli.CheckRepositoryURL "http://github.com/o/r" = Ok false
  /\ cli.CheckRepositoryURL "see https://github.com/o/r" = Ok false.
Proof. repeat split; vm_compute; reflexivity. Qed.

(** The dot of a pattern takes a whole code point: in [.+.go$] the two
    bytes of an accented letter are one character, so a file named by
    that letter and [go] has no extension [.go], in both packages. *)
Example dot_takes_a_code_point :
  utf8.runes (e_acute ++ "go") = [233; 103; 111]
  /\ regexp.MatchString ".+.go$" (e_acute ++ "go") = Ok false
  /\ regexp.MatchString ".+.go$" ("a" ++ e_acute ++ "go") = Ok true
  /\ Main.CheckLink row_accent ".go" [] = Ok ENil
  /\ Commands.CheckLink row_accent ".go" [] = Ok ENil.
Proof. repeat split; vm_compute; reflexivity. Qed.

(** A byte that starts no well-formed sequence is read alone, and a
    sequence cut short or out of range is not joined. *)
Example ill_formed_bytes :
  utf8.DecodeRuneInString (String "169" "a") = (utf8.RuneError, 1%nat)
  /\ utf8.DecodeRuneInString (String "195" "a") = (utf8.RuneError, 1%nat)
  /\ utf8.DecodeRuneInString (String "195" EmptyString) = (utf8.RuneError, 1%nat)
  /\ utf8.DecodeRuneInString (String "226" (String "130" (String "172" EmptyString)))
     = (8364, 3%nat)
  /\ utf8.DecodeRuneInString (String "240" (String "159" (String "152" (String "128" EmptyString))))
     = (128512, 4%nat)
  /\ utf8.DecodeRuneInString (String "237" (String "160" (String "128" EmptyString)))
     = (utf8.RuneError, 1%nat)
  /\ utf8.runes (String "195" (String "010" EmptyString)) = [utf8.RuneError; 10].
Proof. repeat split; vm_compute; reflexivity. Qed.

Lemma index_last {A : Type} (init : list A) (x : A) :
  index (init ++ [x]) (len (init ++ [x]) - 1) = Ok x.
Proof.
  unfold index, len. rewrite length_app. cbn [length].
  replace (Z.of_nat (length init + 1) - 1) with (Z.of_nat (length init)) by lia.
  replace ((0 <=? Z.of_nat (length init)) && (Z.of_nat (length init) <? Z.of_nat (length init + 1)))
    with true by (symmetry; apply andb_true_intro; split; [apply Z.leb_le | apply Z.ltb_lt]; lia).
  rewrite Nat2Z.id, list_lookup_middle by reflexivity. reflexivity.
Qed.

Lemma split_go_trailing (c : ascii) (s : string) :
  forall cur,
    exists init,
      strings.split_go (String c EmptyString) (s ++ String c EmptyString)%string cur 0
      = init ++ [EmptyString].
Proof.
  induction s as [|d s IH]; intros cur.
  - exists [String.rev cur]. change ("" ++ String c "")%string with (String c "").
    cbn [strings.split_go strings.HasPrefix]. rewrite Ascii.eqb_refl. reflexivity.
  - rewrite append_cons. cbn [strings.split_go strings.HasPrefix].
    destruct (Ascii.eqb c d).
    + replace (strings.HasPrefix (s ++ String c "")%string "") with true
        by (destruct (s ++ String c "")%string; reflexivity).
      cbn [String.length Nat.pred]. destruct (IH EmptyString) as (init & ->).
      exists (String.rev cur :: init). reflexivity.
    + apply IH.
Qed.

(** X18.  The name of the result file never makes the program panic: it
    is what follows the last slash of the URL (the whole URL when it has
    no slash), and so holds no slash; package main adds [.md], package
    commands puts it below [./results/]. *)
Theorem X18_result_file_is_named_after_last_segment (url : string) :
  exists name,
    cli.fname url = Ok name
    /\ has_char "/" name = false
    /\ (url = name \/ exists p, url = (p ++ "/" ++ name)%string)
    /\ cli.Main_result_file url = Ok (name ++ ".md")%string
    /\ cli.Commands_result_file url = Ok ("./results/" ++ name ++ ".md")%string.
Proof.
  destruct (exists_last (l := strings.Split url "/")) as (init & name & Hl);
    [apply split_go_nonempty|].
  assert (cli.fname url = Ok name) as Hf.
  { unfold cli.fname. rewrite Hl. apply index_last. }
  exists name. split; [exact Hf|]. split; [|split; [|split]].
  - pose proof (Split_pieces "/" url) as Hp. rewrite Hl in Hp.
    apply Forall_app in Hp as [_ Hp]. inversion Hp; assumption.
  - pose proof (Join_Split url "/") as Hj. rewrite Hl in Hj.
    destruct init as [|e init].
    + left. symmetry. apply Hj. discriminate.
    + right. exists (strings.Join (e :: init) "/").
      rewrite Join_snoc in Hj by discriminate. symmetry. apply Hj. discriminate.
  - unfold cli.Main_result_file. rewrite Hf. reflexivity.
  - unfold cli.Commands_result_file. rewrite Hf. reflexivity.
Qed.

(** X19.  For a URL that ends with a slash, as the one of the usage
    example in [main.go], the name is empty: package main writes the
    file [.md] and package commands the file [./results/.md]. *)
Theorem X19_trailing_slash_gives_an_empty_name (url : string) :
  cli.Main_result_file (url ++ "/")%string = Ok ".md"
  /\ cli.Commands_result_file (url ++ "/")%string = Ok "./results/.md".
Proof.
  assert (cli.fname (url ++ "/")%string = Ok "") as Hf.
  { unfold cli.fname.
    destruct (split_go_trailing "/" url EmptyString) as (init & Hi).
    change (strings.Split (url ++ "/")%string "/")
      with (strings.split_go "/" (url ++ "/")%string "" 0).
    rewrite Hi. apply index_last. }
  unfold cli.Main_result_file, cli.Commands_result_file. rewrite Hf. split; reflexivity.
Qed.

(** ** The URL of a link *)

Lemma Main_attr_step_url (n : Node) mf md (v v' : Main.vars) (a : Attribute)
    (all : list Attribute) :
  In a all ->
  (Main.isDir v || Main.isTrackedFile v = true ->
   exists b, In b all /\ Key b = "href" /\ Main.fhref v = (origin ++ Val b)%string) ->
  Main.attr_step n mf md v a = Ok v' ->
  Main.isDir v' || Main.isTrackedFile v' = true ->
  exists b, In b all /\ Key b = "href" /\ Main.fhref v' = (origin ++ Val b)%string.
Proof.
  intros Ha Hv H. unfold Main.attr_step in H.
  destruct (String.eqb_spec (Key a) "href") as [Hk|_].
  - apply bind_Ok in H as (label & _ & H). apply bind_Ok in H as (v1 & Hv1 & H).
    assert (Main.fhref v1 = (origin ++ Val a)%string) as Hf by (crack Hv1; reflexivity).
    intros _. exists a. split; [exact Ha|]. split; [exact Hk|].
    crack H; [cbn|]; exact Hf.
  - crack H; exact Hv.
Qed.

Lemma Main_attr_loop_url (n : Node) mf md (all attrs : list Attribute) :
  incl attrs all ->
  forall v v',
    (Main.isDir v || Main.isTrackedFile v = true ->
     exists b, In b all /\ Key b = "href" /\ Main.fhref v = (origin ++ Val b)%string) ->
    Main.attr_loop n mf md attrs v = Ok v' ->
    Main.isDir v' || Main.isTrackedFile v' = true ->
    exists b, In b all /\ Key b = "href" /\ Main.fhref v' = (origin ++ Val b)%string.
Proof.
  induction attrs as [|a attrs IH]; cbn [Main.attr_loop]; intros Hincl v v' Hv H.
  - injection H as <-. exact Hv.
  - apply bind_Ok in H as (v1 & Hv1 & H).
    apply (IH (fun x Hx => Hincl x (or_intror Hx)) v1 v'); [|exact H].
    eapply Main_attr_step_url; [apply Hincl; left; reflexivity | exact Hv | exact Hv1].
Qed.

Lemma Commands_attr_step_url (n : Node) mf md (v v' : Commands.vars) (a : Attribute)
    (all : list Attribute) :
  In a all ->
  (Commands.isDir v || Commands.isTrackedFile v = true ->
   exists b, In b all /\ Key b = "href" /\ Commands.href v = (origin ++ Val b)%string) ->
  Commands.attr_step n mf md v a = Ok v' ->
  Commands.isDir v' || Commands.isTrackedFile v' = true ->
  exists b, In b all /\ Key b = "href" /\ Commands.href v' = (origin ++ Val b)%string.
Proof.
  intros Ha Hv H. unfold Commands.attr_step in H.
  destruct (String.eqb_spec (Key a) "href") as [Hk|_].
  - apply bind_Ok in H as (label & _ & H).
    intros _. exists a. split; [exact Ha|]. split; [exact Hk|].
    crack H; reflexivity.
  - crack H; exact Hv.
Qed.

Lemma Commands_attr_loop_url (n : Node) mf md (all attrs : list Attribute) :
  incl attrs all ->
  forall v v',
    (Commands.isDir v || Commands.isTrackedFile v = true ->
     exists b, In b all /\ Key b = "href" /\ Commands.href v = (origin ++ Val b)%string) ->
    Commands.attr_loop n mf md attrs v = Ok v' ->
    Commands.isDir v' || Commands.isTrackedFile v' = true ->
    exists b, In b all /\ Key b = "href" /\ Commands.href v' = (origin ++ Val b)%string.
Proof.
  induction attrs as [|a attrs IH]; cbn [Commands.attr_loop]; intros Hincl v v' Hv H.
  - injection H as <-. exact Hv.
  - apply bind_Ok in H as (v1 & Hv1 & H).
    apply (IH (fun x Hx => Hincl x (or_intror Hx)) v1 v'); [|exact H].
    eapply Commands_attr_step_url; [apply Hincl; left; reflexivity | exact Hv | exact Hv1].
Qed.

(** X20.  The URL of a link is the origin of the site followed by the
    value of an href attribute of the node, taken as it is: a value that
    is already an absolute URL gets the origin in front all the same.
    This holds of the files of both packages and of the directories of
    package commands. *)
Theorem X20_href_is_origin_and_attribute (n : Node) (extension : string)
    (ignoreDirs : list string) (e : Element) :
  Commands.CheckLink n extension ignoreDirs = Ok e
  \/ (Main.CheckLink n extension ignoreDirs = Ok e /\ exists f, e = EFile f) ->
  e <> ENil ->
  exists a, In a (Attr n) /\ Key a = "href"
            /\ match e with
               | EFile f => file_href f = (origin ++ Val a)%string
               | EDir d => dir_href d = (origin ++ Val a)%string
               | ENil => False
               end.
Proof.
  intros [H|[H (f & ->)]] Hne.
  - destruct (Commands_CheckLink_flags _ _ _ _ H Hne) as (v & Hv & _ & _ & Hflag).
    assert (Commands.isDir v || Commands.isTrackedFile v = true) as Hfl.
    { destruct e; [contradiction | destruct Hflag as [-> _]; apply orb_true_r
                   | rewrite Hflag; reflexivity]. }
    assert (exists b, In b (Attr n) /\ Key b = "href"
                      /\ Commands.href v = (origin ++ Val b)%string) as (b & Hb & Hk & Hu).
    { pose proof Hv as Hs. unfold Commands.scan in Hs. crack Hs.
      eapply (Commands_attr_loop_url n _ _ (Attr n) (Attr n));
        [apply incl_refl | | exact Hs | exact Hfl].
      intros E. discriminate E. }
    exists b. split; [exact Hb|]. split; [exact Hk|].
    unfold Commands.CheckLink in H. rewrite Hv in H. cbn [bind] in H.
    unfold Commands.decide_link in H. crack H; try congruence; cbn; exact Hu.
  - destruct (Main_CheckLink_flags _ _ _ _ H Hne) as (v & Hv & _ & _ & Hflag & _).
    assert (exists b, In b (Attr n) /\ Key b = "href"
                      /\ Main.fhref v = (origin ++ Val b)%string) as (b & Hb & Hk & Hu).
    { pose proof Hv as Hs. unfold Main.scan in Hs. crack Hs.
      eapply (Main_attr_loop_url n _ _ (Attr n) (Attr n));
        [apply incl_refl | | exact Hs | rewrite Hflag; apply orb_true_r].
      intros E. discriminate E. }
    exists b. split; [exact Hb|]. split; [exact Hk|].
    unfold Main.CheckLink in H. rewrite Hv in H. cbn [bind] in H.
    unfold Main.decide_link in H. crack H; try congruence; cbn; try exact Hu.
Qed.

Lemma X20_href_is_origin_and_attribute_witness :
  Commands.CheckLink row_absolute ".go" []
    = Ok (EDir (mkMDDir "r/tree/main/a"
                        "https://github.comhttps://example.org/o/r/tree/main/a"))
  /\ exists a, In a (Attr row_absolute) /\ Key a = "href"
               /\ "https://github.comhttps://example.org/o/r/tree/main/a"
                  = (origin ++ Val a)%string.
Proof.
  assert (Commands.CheckLink row_absolute ".go" []
          = Ok (EDir (mkMDDir "r/tree/main/a"
                              "https://github.comhttps://example.org/o/r/tree/main/a"))) as H
    by (vm_compute; reflexivity).
  split; [exact H|].
  exact (X20_href_is_origin_and_attribute row_absolute ".go" [] _ (or_introl H)
           ltac:(discriminate)).
Defined.
